(** * College Management API: a shallow embedding of [app.py]

    The program is a FastAPI application that keeps three in-memory
    collections (students, courses, enrollments) behind bearer-token
    authentication.
    The embedding follows the source:

    - stored records are Python dicts with string keys, modelled as
      [gmap string value];
    - request bodies are pydantic models, modelled as records that carry the
      set of fields the client supplied (pydantic's [__fields_set__]), which
      is what [dict(exclude_unset=True)] consults;
    - the six module-level globals are the fields of [store]; a handler is a
      function from the store to an outcome and the store it leaves behind,
      also when it raises;
    - [raise] is the [Raise] branch of the [result] monad;
    - the clock ([datetime.utcnow()]) is an explicit argument in whole
      seconds, as python-jose truncates both the [exp] claim and the
      validation time to seconds;
    - the JWT library (python-jose) is not part of the program: it is an
      interface, [Jose], that states the documented behaviour of
      [jwt.encode] and [jwt.decode]; [RefJose] is a small executable
      instance of it. *)

From stdpp Require Import base option list gmap strings pretty sorting.

Local Open Scope string_scope.
Local Open Scope Z_scope.

(** ** Python values and dicts *)

(** The scalars that occur in the stored dicts and in token claims. *)
Inductive value :=
| VNone
| VInt (n : Z)
| VStr (s : string).

Global Instance value_eq_dec : EqDecision value.
Proof. solve_decision. Defined.

(** Python's [==] on these scalars. *)
Definition py_eq (a b : value) : bool :=
  match a, b with
  | VNone, VNone => true
  | VInt n, VInt m => Z.eqb n m
  | VStr s, VStr t => String.eqb s t
  | _, _ => false
  end.

Abbreviation pydict := (gmap string value).

(** [d.update(u)]: the keys of [u] win. *)
Definition dict_update (d u : pydict) : pydict := u ∪ d.

(** ** Exceptions *)

Inductive exn :=
| HTTPException (status_code : Z) (detail : string)
                (headers : list (string * string))
| KeyError (key : string)
| JWTError (msg : string).

Definition HTTP_401_UNAUTHORIZED : Z := 401.
Definition HTTP_404_NOT_FOUND : Z := 404.

Inductive result (A : Type) :=
| Ok (a : A)
| Raise (e : exn).
Arguments Ok {A} a.
Arguments Raise {A} e.

Global Instance result_ret : MRet result := λ A a, Ok a.
Global Instance result_bind : MBind result := λ A B f m,
  match m with
  | Ok a => f a
  | Raise e => Raise e
  end.

(** [d[k]] *)
Definition getitem (d : pydict) (k : string) : result value :=
  match d !! k with
  | Some v => Ok v
  | None => Raise (KeyError k)
  end.

(** ** Pydantic models *)

Module Student.
Record t := mk {
  id : option Z;
  major : string;
  email : string;
  fields_set : gset string
}.

(** [student_data.dict()] *)
Definition dict (m : t) : pydict :=
  <["id" := from_option VInt VNone (id m)]>
    (<["major" := VStr (major m)]>
       (<["email" := VStr (email m)]> ∅)).

(** [student_data.dict(exclude_unset=True)] *)
Definition dict_exclude_unset (m : t) : pydict :=
  filter (λ kv, kv.1 ∈ fields_set m) (dict m).

(** What request validation guarantees: the required fields were sent. *)
Definition validated (m : t) : Prop :=
  {["major"; "email"]} ⊆ fields_set m ∧
  fields_set m ⊆ {["id"; "major"; "email"]}.
End Student.

Module Course.
Record t := mk {
  id : option Z;
  title : string;
  code : string;
  credits : Z;
  fields_set : gset string
}.

Definition dict (m : t) : pydict :=
  <["id" := from_option VInt VNone (id m)]>
    (<["title" := VStr (title m)]>
       (<["code" := VStr (code m)]>
          (<["credits" := VInt (credits m)]> ∅))).

Definition dict_exclude_unset (m : t) : pydict :=
  filter (λ kv, kv.1 ∈ fields_set m) (dict m).

Definition validated (m : t) : Prop :=
  {["title"; "code"; "credits"]} ⊆ fields_set m ∧
  fields_set m ⊆ {["id"; "title"; "code"; "credits"]}.
End Course.

Module Enrollment.
Record t := mk {
  id : option Z;
  student_id : Z;
  course_id : Z
}.

Definition dict (m : t) : pydict :=
  <["id" := from_option VInt VNone (id m)]>
    (<["student_id" := VInt (student_id m)]>
       (<["course_id" := VInt (course_id m)]> ∅)).
End Enrollment.

(** ** The module-level state *)

Record store := mkStore {
  students_db : list pydict;
  courses_db : list pydict;
  enrollments_db : list pydict;
  next_student_id : Z;
  next_course_id : Z;
  next_enrollment_id : Z
}.

Definition initial_store : store :=
  {| students_db := []; courses_db := []; enrollments_db := [];
     next_student_id := 1; next_course_id := 1; next_enrollment_id := 1 |}.

Definition set_students_db (l : list pydict) (st : store) : store :=
  {| students_db := l; courses_db := courses_db st;
     enrollments_db := enrollments_db st;
     next_student_id := next_student_id st;
     next_course_id := next_course_id st;
     next_enrollment_id := next_enrollment_id st |}.

Definition set_courses_db (l : list pydict) (st : store) : store :=
  {| students_db := students_db st; courses_db := l;
     enrollments_db := enrollments_db st;
     next_student_id := next_student_id st;
     next_course_id := next_course_id st;
     next_enrollment_id := next_enrollment_id st |}.

Definition set_enrollments_db (l : list pydict) (st : store) : store :=
  {| students_db := students_db st; courses_db := courses_db st;
     enrollments_db := l;
     next_student_id := next_student_id st;
     next_course_id := next_course_id st;
     next_enrollment_id := next_enrollment_id st |}.

Definition set_next_student_id (n : Z) (st : store) : store :=
  {| students_db := students_db st; courses_db := courses_db st;
     enrollments_db := enrollments_db st;
     next_student_id := n;
     next_course_id := next_course_id st;
     next_enrollment_id := next_enrollment_id st |}.

Definition set_next_course_id (n : Z) (st : store) : store :=
  {| students_db := students_db st; courses_db := courses_db st;
     enrollments_db := enrollments_db st;
     next_student_id := next_student_id st;
     next_course_id := n;
     next_enrollment_id := next_enrollment_id st |}.

Definition set_next_enrollment_id (n : Z) (st : store) : store :=
  {| students_db := students_db st; courses_db := courses_db st;
     enrollments_db := enrollments_db st;
     next_student_id := next_student_id st;
     next_course_id := next_course_id st;
     next_enrollment_id := n |}.

(** ** The loops over a collection *)

(** [for idx, r in enumerate(db): if r["id"] == target: ...]: the position
    and the record of the first match, [None] when the loop falls through.
    A record without an ["id"] key met on the way raises [KeyError]. *)
Fixpoint find_by_id (db : list pydict) (target : Z) (idx : nat)
  : result (option (nat * pydict)) :=
  match db with
  | [] => Ok None
  | r :: rest =>
      v ← getitem r "id";
      if py_eq v (VInt target) then Ok (Some (idx, r))
      else find_by_id rest target (S idx)
  end.

(** [[r for r in db if r["id"] != target]] *)
Fixpoint without_id (db : list pydict) (target : Z) : result (list pydict) :=
  match db with
  | [] => Ok []
  | r :: rest =>
      v ← getitem r "id";
      rest' ← without_id rest target;
      Ok (if negb (py_eq v (VInt target)) then r :: rest' else rest')
  end.

(** [any(r["id"] == target for r in db)] *)
Fixpoint any_id_eq (db : list pydict) (target : Z) : result bool :=
  match db with
  | [] => Ok false
  | r :: rest =>
      v ← getitem r "id";
      if py_eq v (VInt target) then Ok true else any_id_eq rest target
  end.

(** ** Handlers of the three collections *)

(** What a store handler returns: [None], one record, or the collection. *)
Inductive pyobj :=
| PNone
| PDict (d : pydict)
| PList (l : list pydict).

(** A handler runs on the globals and leaves them behind, also when it
    raises. *)
Definition handler (A : Type) : Type := store → result A * store.

(** Run a pure computation that may raise, then continue. *)
Definition try_ {A B} (r : result A) (k : A → handler B) : handler B :=
  λ st, match r with
        | Ok a => k a st
        | Raise e => (Raise e, st)
        end.

Definition not_found {A} (detail : string) : result A :=
  Raise (HTTPException HTTP_404_NOT_FOUND detail []).

(** *** Students *)

Definition get_students : handler pyobj :=
  λ st, (Ok (PList (students_db st)), st).

Definition add_student (student_data : Student.t) : handler pyobj :=
  λ st,
    let new_student := Student.dict student_data in
    let new_student := <["id" := VInt (next_student_id st)]> new_student in
    let st := set_students_db (students_db st ++ [new_student]) st in
    let st := set_next_student_id (next_student_id st + 1) st in
    (Ok (PDict new_student), st).

Definition get_student (student_id : Z) : handler pyobj :=
  λ st,
    try_ (find_by_id (students_db st) student_id 0) (λ found st,
      match found with
      | Some (_, student) => (Ok (PDict student), st)
      | None => (not_found "Student not found", st)
      end) st.

Definition update_student (student_id : Z) (student_data : Student.t)
  : handler pyobj :=
  λ st,
    try_ (find_by_id (students_db st) student_id 0) (λ found st,
      match found with
      | Some (idx, student) =>
          let updated_data := Student.dict_exclude_unset student_data in
          let updated_data :=
            if bool_decide (is_Some (updated_data !! "id"))
            then delete "id" updated_data else updated_data in
          let student := dict_update student updated_data in
          (Ok (PDict student),
           set_students_db (<[idx := student]> (students_db st)) st)
      | None => (not_found "Student not found", st)
      end) st.

Definition delete_student (student_id : Z) : handler pyobj :=
  λ st,
    let initial_len := length (students_db st) in
    try_ (without_id (students_db st) student_id) (λ kept st,
      let st := set_students_db kept st in
      if Nat.eqb (length (students_db st)) initial_len
      then (not_found "Student not found", st)
      else (Ok PNone, st)) st.

(** *** Courses *)

Definition get_courses : handler pyobj :=
  λ st, (Ok (PList (courses_db st)), st).

Definition add_course (course_data : Course.t) : handler pyobj :=
  λ st,
    let new_course := Course.dict course_data in
    let new_course := <["id" := VInt (next_course_id st)]> new_course in
    let st := set_courses_db (courses_db st ++ [new_course]) st in
    let st := set_next_course_id (next_course_id st + 1) st in
    (Ok (PDict new_course), st).

Definition get_course (course_id : Z) : handler pyobj :=
  λ st,
    try_ (find_by_id (courses_db st) course_id 0) (λ found st,
      match found with
      | Some (_, course) => (Ok (PDict course), st)
      | None => (not_found "Course not found", st)
      end) st.

Definition update_course (course_id : Z) (course_data : Course.t)
  : handler pyobj :=
  λ st,
    try_ (find_by_id (courses_db st) course_id 0) (λ found st,
      match found with
      | Some (idx, course) =>
          let updated_data := Course.dict_exclude_unset course_data in
          let updated_data :=
            if bool_decide (is_Some (updated_data !! "id"))
            then delete "id" updated_data else updated_data in
          let course := dict_update course updated_data in
          (Ok (PDict course),
           set_courses_db (<[idx := course]> (courses_db st)) st)
      | None => (not_found "Course not found", st)
      end) st.

Definition delete_course (course_id : Z) : handler pyobj :=
  λ st,
    let initial_len := length (courses_db st) in
    try_ (without_id (courses_db st) course_id) (λ kept st,
      let st := set_courses_db kept st in
      if Nat.eqb (length (courses_db st)) initial_len
      then (not_found "Course not found", st)
      else (Ok PNone, st)) st.

(** *** Enrollments *)

Definition get_enrollments : handler pyobj :=
  λ st, (Ok (PList (enrollments_db st)), st).

(** The f-strings of the two 404 details; [pretty] prints a [Z] in decimal
    as Python formats an [int]. *)
Definition student_missing_detail (student_id : Z) : string :=
  "Student with ID " +:+ pretty student_id +:+ " not found".
Definition course_missing_detail (course_id : Z) : string :=
  "Course with ID " +:+ pretty course_id +:+ " not found".

Definition add_enrollment (enrollment_data : Enrollment.t) : handler pyobj :=
  λ st,
    try_ (any_id_eq (students_db st)
            (Enrollment.student_id enrollment_data)) (λ student_exists,
    try_ (any_id_eq (courses_db st)
            (Enrollment.course_id enrollment_data)) (λ course_exists st,
      if negb student_exists then
        (not_found
           (student_missing_detail (Enrollment.student_id enrollment_data)),
         st)
      else if negb course_exists then
        (not_found
           (course_missing_detail (Enrollment.course_id enrollment_data)),
         st)
      else
        let new_enrollment := Enrollment.dict enrollment_data in
        let new_enrollment :=
          <["id" := VInt (next_enrollment_id st)]> new_enrollment in
        let st :=
          set_enrollments_db (enrollments_db st ++ [new_enrollment]) st in
        let st := set_next_enrollment_id (next_enrollment_id st + 1) st in
        (Ok (PDict new_enrollment), st))) st.

Definition get_enrollment (enrollment_id : Z) : handler pyobj :=
  λ st,
    try_ (find_by_id (enrollments_db st) enrollment_id 0) (λ found st,
      match found with
      | Some (_, enrollment) => (Ok (PDict enrollment), st)
      | None => (not_found "Enrollment not found", st)
      end) st.

Definition delete_enrollment (enrollment_id : Z) : handler pyobj :=
  λ st,
    let initial_len := length (enrollments_db st) in
    try_ (without_id (enrollments_db st) enrollment_id) (λ kept st,
      let st := set_enrollments_db kept st in
      if Nat.eqb (length (enrollments_db st)) initial_len
      then (not_found "Enrollment not found", st)
      else (Ok PNone, st)) st.

(** ** The JWT library *)

(** [exp] of a claim set is not before [now]: jose raises
    [ExpiredSignatureError] exactly when [exp < now]. *)
Definition exp_not_passed (claims : pydict) (now : Z) : Prop :=
  ∀ e, claims !! "exp" = Some (VInt e) → now ≤ e.

(** [sub], when present, is a string: jose raises [JWTClaimsError]
    otherwise. *)
Definition sub_is_str (claims : pydict) : Prop :=
  ∀ v, claims !! "sub" = Some v → ∃ s, v = VStr s.

(** The part of python-jose the program calls, with the documented
    behaviour the program relies on: [jwt_encode claims key algorithm] is
    [jwt.encode], [jwt_decode token key algorithms now] is [jwt.decode] run
    at time [now], and [jwt_get_unverified_claims] reads the claims a token
    carries without verifying it. Decoding raises nothing but [JWTError]
    (whose subclasses [ExpiredSignatureError] and [JWTClaimsError] are not
    told apart, as the program catches the base class). *)
Class Jose (token : Type) := {
  jwt_encode : pydict → string → string → token;
  jwt_decode : token → string → list string → Z → result pydict;
  jwt_get_unverified_claims : token → option pydict;
  (** a token signed with [key] over [sub] and [exp] claims decodes, under
      the same key, with its algorithm allowed and before its expiry, to
      the claims that were encoded *)
  jwt_decode_encode : ∀ claims key algorithm algorithms now,
    algorithm ∈ algorithms →
    dom claims ⊆ {["sub"; "exp"]} →
    sub_is_str claims →
    (∃ e, claims !! "exp" = Some (VInt e) ∧ now ≤ e) →
    jwt_decode (jwt_encode claims key algorithm) key algorithms now
    = Ok claims;
  (** what decodes is what the token carries, is not expired and has a
      well-typed subject *)
  jwt_decode_sound : ∀ tok key algorithms now claims,
    jwt_decode tok key algorithms now = Ok claims →
    jwt_get_unverified_claims tok = Some claims ∧
    exp_not_passed claims now ∧ sub_is_str claims;
  (** decoding raises [JWTError] only *)
  jwt_decode_raises : ∀ tok key algorithms now e,
    jwt_decode tok key algorithms now = Raise e → ∃ msg, e = JWTError msg
}.

(** ** Token service and router *)

Module TokenData.
Record t := mk { username : option string }.

(** [TokenData(username=v)]: an [Optional[str]] field. A string is kept;
    pydantic turns an [int] into its decimal string (jose only lets a
    string subject through, so that case does not arise after
    [jwt.decode]). *)
Definition validate (v : value) : t :=
  match v with
  | VNone => mk None
  | VStr s => mk (Some s)
  | VInt n => mk (Some (pretty n))
  end.
End TokenData.

Module OAuth2PasswordRequestForm.
Record t := mk { username : string; password : string }.
End OAuth2PasswordRequestForm.

Module Token.
Record t (token : Type) := mk { access_token : token; token_type : string }.
Arguments mk {token} _ _.
Arguments access_token {token} _.
Arguments token_type {token} _.
End Token.

Definition ALGORITHM : string := "HS256".
Definition ACCESS_TOKEN_EXPIRE_MINUTES : Z := 60.
Definition VALID_USERNAME : string := "admin".
Definition VALID_PASSWORD : string := "password123".

(** [timedelta(minutes=m)], in seconds. *)
Definition timedelta_minutes (m : Z) : Z := m * 60.

Definition bearer_challenge : list (string * string) :=
  [("WWW-Authenticate", "Bearer")].

Definition credentials_exception : exn :=
  HTTPException HTTP_401_UNAUTHORIZED "Could not validate credentials"
    bearer_challenge.

(** What the router sends back on success. *)
Inductive response (token : Type) :=
| Body (o : pyobj)
| TokenBody (t : Token.t token).
Arguments Body {token} o.
Arguments TokenBody {token} t.

Inductive request (token : Type) :=
| GET_root
| POST_token (form_data : OAuth2PasswordRequestForm.t)
| GET_students (authorization : option token)
| POST_students (authorization : option token) (student_data : Student.t)
| GET_student (authorization : option token) (student_id : Z)
| PUT_student (authorization : option token) (student_id : Z)
              (student_data : Student.t)
| DELETE_student (authorization : option token) (student_id : Z)
| GET_courses (authorization : option token)
| POST_courses (authorization : option token) (course_data : Course.t)
| GET_course (authorization : option token) (course_id : Z)
| PUT_course (authorization : option token) (course_id : Z)
             (course_data : Course.t)
| DELETE_course (authorization : option token) (course_id : Z)
| GET_enrollments (authorization : option token)
| POST_enrollments (authorization : option token)
                   (enrollment_data : Enrollment.t)
| GET_enrollment (authorization : option token) (enrollment_id : Z)
| DELETE_enrollment (authorization : option token) (enrollment_id : Z).
Arguments GET_root {token}.
Arguments POST_token {token} _.
Arguments GET_students {token} _.
Arguments POST_students {token} _ _.
Arguments GET_student {token} _ _.
Arguments PUT_student {token} _ _ _.
Arguments DELETE_student {token} _ _.
Arguments GET_courses {token} _.
Arguments POST_courses {token} _ _.
Arguments GET_course {token} _ _.
Arguments PUT_course {token} _ _ _.
Arguments DELETE_course {token} _ _.
Arguments GET_enrollments {token} _.
Arguments POST_enrollments {token} _ _.
Arguments GET_enrollment {token} _ _.
Arguments DELETE_enrollment {token} _ _.

Section token_service.
Context {token : Type} `{!Jose token}.

(** [os.environ] at import time. *)
Variable environ : gmap string string.

Definition SECRET_KEY : string :=
  default "your-super-secret-jwt-key-for-fastapi"
          (environ !! "JWT_SECRET_KEY").

(** [now] is [datetime.utcnow()]; [expires_delta] is a [timedelta] in
    seconds, falsy when absent or zero. *)
Definition create_access_token (now : Z) (data : pydict)
    (expires_delta : option Z) : token :=
  let to_encode := data in
  let expire :=
    match expires_delta with
    | Some delta =>
        if negb (Z.eqb delta 0) then now + delta
        else now + timedelta_minutes ACCESS_TOKEN_EXPIRE_MINUTES
    | None => now + timedelta_minutes ACCESS_TOKEN_EXPIRE_MINUTES
    end in
  let to_encode := dict_update to_encode {["exp" := VInt expire]} in
  jwt_encode to_encode SECRET_KEY ALGORITHM.

(** [try: ... except JWTError: raise credentials_exception] *)
Definition except_JWTError {A} (body : result A) : result A :=
  match body with
  | Raise (JWTError _) => Raise credentials_exception
  | other => other
  end.

Definition get_current_user (now : Z) (tok : token) : result string :=
  token_data ← except_JWTError (
    payload ← jwt_decode tok SECRET_KEY [ALGORITHM] now;
    match payload !! "sub" with
    | None | Some VNone => Raise credentials_exception
    | Some username => Ok (TokenData.validate username)
    end);
  match TokenData.username token_data with
  | Some username =>
      if negb (String.eqb username VALID_USERNAME)
      then Raise credentials_exception
      else Ok username
  | None => Raise credentials_exception
  end.

(** [OAuth2PasswordBearer(tokenUrl="token")]: the bearer credential of
    the request, or 401 when the request carries none. *)
Definition oauth2_scheme (authorization : option token) : result token :=
  match authorization with
  | Some tok => Ok tok
  | None =>
      Raise (HTTPException HTTP_401_UNAUTHORIZED "Not authenticated"
               bearer_challenge)
  end.

Definition home : handler pyobj :=
  λ st,
    (Ok (PDict {["message" := VStr "Welcome to the College Management API!"]}),
     st).

Definition login_for_access_token (now : Z)
    (form_data : OAuth2PasswordRequestForm.t)
  : handler (Token.t token) :=
  λ st,
    let username := OAuth2PasswordRequestForm.username form_data in
    let password := OAuth2PasswordRequestForm.password form_data in
    if negb (String.eqb username VALID_USERNAME)
       || negb (String.eqb password VALID_PASSWORD)
    then
      (Raise (HTTPException HTTP_401_UNAUTHORIZED
                "Incorrect username or password" bearer_challenge),
       st)
    else
      let access_token_expires :=
        timedelta_minutes ACCESS_TOKEN_EXPIRE_MINUTES in
      let access_token :=
        create_access_token now {["sub" := VStr username]}
          (Some access_token_expires) in
      (Ok (Token.mk access_token "bearer"), st).

(** [current_user: str = Depends(get_current_user)]: the dependency is
    resolved before the endpoint body; when it raises, the body does not
    run. *)
Definition depends_current_user {A} (now : Z)
    (authorization : option token) (endpoint : string → handler A)
  : handler A :=
  try_ (tok ← oauth2_scheme authorization; get_current_user now tok)
       endpoint.

Definition as_body (h : handler pyobj) : handler (response token) :=
  λ st, let '(r, st') := h st in (o ← r; Ok (Body o), st').

Definition route (now : Z) (req : request token)
  : handler (response token) :=
  match req with
  | GET_root => as_body home
  | POST_token form_data =>
      λ st, let '(r, st') := login_for_access_token now form_data st in
            (t ← r; Ok (TokenBody t), st')
  | GET_students a =>
      as_body (depends_current_user now a (λ _, get_students))
  | POST_students a d =>
      as_body (depends_current_user now a (λ _, add_student d))
  | GET_student a i =>
      as_body (depends_current_user now a (λ _, get_student i))
  | PUT_student a i d =>
      as_body (depends_current_user now a (λ _, update_student i d))
  | DELETE_student a i =>
      as_body (depends_current_user now a (λ _, delete_student i))
  | GET_courses a =>
      as_body (depends_current_user now a (λ _, get_courses))
  | POST_courses a d =>
      as_body (depends_current_user now a (λ _, add_course d))
  | GET_course a i =>
      as_body (depends_current_user now a (λ _, get_course i))
  | PUT_course a i d =>
      as_body (depends_current_user now a (λ _, update_course i d))
  | DELETE_course a i =>
      as_body (depends_current_user now a (λ _, delete_course i))
  | GET_enrollments a =>
      as_body (depends_current_user now a (λ _, get_enrollments))
  | POST_enrollments a d =>
      as_body (depends_current_user now a (λ _, add_enrollment d))
  | GET_enrollment a i =>
      as_body (depends_current_user now a (λ _, get_enrollment i))
  | DELETE_enrollment a i =>
      as_body (depends_current_user now a (λ _, delete_enrollment i))
  end.
End token_service.

(** ** A reference implementation of the JWT interface

    Tokens are kept structured: either text that does not parse, or a claim
    set with the algorithm name and the tag the signer attached. The tag is
    the signing key itself,
    which is enough to run the token service on concrete inputs. *)
Module RefJose.
Inductive token :=
| Garbled (text : string)
| Signed (claims : pydict) (alg : string) (tag : string).

Definition sub_ok (claims : pydict) : bool :=
  match claims !! "sub" with
  | None | Some (VStr _) => true
  | Some _ => false
  end.

Definition expired (claims : pydict) (now : Z) : bool :=
  match claims !! "exp" with
  | Some (VInt e) => Z.ltb e now
  | _ => false
  end.

Definition encode (claims : pydict) (key : string) (algorithm : string)
  : token :=
  Signed claims algorithm key.

Definition decode (tok : token) (key : string) (algorithms : list string)
    (now : Z) : result pydict :=
  match tok with
  | Garbled _ => Raise (JWTError "Not enough segments")
  | Signed claims alg tag =>
      if negb (bool_decide (alg ∈ algorithms))
      then Raise (JWTError "The specified alg value is not allowed")
      else if negb (String.eqb tag key)
      then Raise (JWTError "Signature verification failed.")
      else if expired claims now
      then Raise (JWTError "Signature has expired.")
      else if negb (sub_ok claims)
      then Raise (JWTError "Subject must be a string.")
      else Ok claims
  end.

Definition get_unverified_claims (tok : token) : option pydict :=
  match tok with
  | Garbled _ => None
  | Signed claims _ _ => Some claims
  end.
End RefJose.

(** ** The three collections, uniformly *)

Inductive collection := Students | Courses | Enrollments.

Global Instance collection_eq_dec : EqDecision collection.
Proof. solve_decision. Defined.

Definition db_of (c : collection) (st : store) : list pydict :=
  match c with
  | Students => students_db st
  | Courses => courses_db st
  | Enrollments => enrollments_db st
  end.

Definition next_id_of (c : collection) (st : store) : Z :=
  match c with
  | Students => next_student_id st
  | Courses => next_course_id st
  | Enrollments => next_enrollment_id st
  end.

Definition delete_in (c : collection) (id : Z) : handler pyobj :=
  match c with
  | Students => delete_student id
  | Courses => delete_course id
  | Enrollments => delete_enrollment id
  end.

Definition not_found_detail (c : collection) : string :=
  match c with
  | Students => "Student not found"
  | Courses => "Course not found"
  | Enrollments => "Enrollment not found"
  end.

(** The request is a create on collection [c]. *)
Definition is_create {token} (c : collection) (req : request token) : bool :=
  match c, req with
  | Students, POST_students _ _ => true
  | Courses, POST_courses _ _ => true
  | Enrollments, POST_enrollments _ _ => true
  | _, _ => false
  end.

(** The request is a delete on collection [c]. *)
Definition is_delete {token} (c : collection) (req : request token) : bool :=
  match c, req with
  | Students, DELETE_student _ _ => true
  | Courses, DELETE_course _ _ => true
  | Enrollments, DELETE_enrollment _ _ => true
  | _, _ => false
  end.

(** The request is served without a token. *)
Definition is_public {token} (req : request token) : bool :=
  match req with
  | GET_root | POST_token _ => true
  | _ => false
  end.

(** The bearer credential a request to a protected endpoint carries. *)
Definition authorization_of {token} (req : request token) : option token :=
  match req with
  | GET_root | POST_token _ => None
  | GET_students a | POST_students a _ | GET_student a _
  | PUT_student a _ _ | DELETE_student a _
  | GET_courses a | POST_courses a _ | GET_course a _
  | PUT_course a _ _ | DELETE_course a _
  | GET_enrollments a | POST_enrollments a _ | GET_enrollment a _
  | DELETE_enrollment a _ => a
  end.

(** ** Invariant of the collections *)

(** Some record of [db] has id [i]. *)
Definition has_id (db : list pydict) (i : Z) : Prop :=
  ∃ r, r ∈ db ∧ r !! "id" = Some (VInt i).

(** Every record carries an integer id that its counter has already
    passed. *)
Definition ids_issued (db : list pydict) (next : Z) : Prop :=
  Forall (λ r, ∃ n, r !! "id" = Some (VInt n) ∧ 1 ≤ n < next) db.

Definition store_inv (st : store) : Prop :=
  ∀ c, 1 ≤ next_id_of c st ∧ ids_issued (db_of c st) (next_id_of c st).

(** Every record has an ["id"] key, so that the scans do not raise. *)
Definition keyed (db : list pydict) : Prop :=
  Forall (λ r, is_Some (r !! "id")) db.

(** The references of an enrollment payload exist in the store. *)
Definition references_exist (st : store) (d : Enrollment.t) : Prop :=
  has_id (students_db st) (Enrollment.student_id d) ∧
  has_id (courses_db st) (Enrollment.course_id d).

(** ** What one request can do to a collection *)

(** The records of [db] whose id is not [i]. *)
Definition others (i : Z) (db : list pydict) : list pydict :=
  filter (λ r, r !! "id" ≠ Some (VInt i)) db.

(** The ways a collection and its counter change in one request: not at
    all, by a create that appends a record numbered by the counter and
    advances it, by an update that rewrites one record and keeps its id, or
    by a delete that drops the records with one id. *)
Inductive db_step (db : list pydict) (next : Z)
  : list pydict → Z → Prop :=
| step_same : db_step db next db next
| step_create d :
    d !! "id" = Some (VInt next) →
    db_step db next (db ++ [d]) (next + 1)
| step_update idx old new :
    db !! idx = Some old → new !! "id" = old !! "id" →
    db_step db next (<[idx := new]> db) next
| step_delete i : db_step db next (others i db) next.

(** One call seen from collection [c]: the collection and its counter make
    a [db_step]; and either the call is a create on [c] ([created]) that
    returns a record numbered by the counter and advances the counter by
    one, or the counter stays and the call is no successful create on [c]. *)
Definition call_summary (created : bool) (c : collection) (st : store)
    (out : result pyobj * store) : Prop :=
  db_step (db_of c st) (next_id_of c st)
          (db_of c out.2) (next_id_of c out.2) ∧
  ((created = true ∧
    ∃ d, out.1 = Ok (PDict d) ∧
         d !! "id" = Some (VInt (next_id_of c st)) ∧
         next_id_of c out.2 = next_id_of c st + 1)
   ∨ (next_id_of c out.2 = next_id_of c st ∧
      (created = false ∨ ∃ e, out.1 = Raise e))).

(** ** Runs *)

(** Calls made one after the other on the shared globals. *)
Fixpoint run {A} (calls : list (handler A)) (st : store)
  : list (result A) * store :=
  match calls with
  | [] => ([], st)
  | h :: rest =>
      let '(r, st1) := h st in
      let '(rs, st2) := run rest st1 in
      (r :: rs, st2)
  end.

(** The id a successful create handed out. *)
Definition assigned_id (r : result pyobj) : option value :=
  match r with
  | Ok (PDict d) => d !! "id"
  | _ => None
  end.

Section serving.
Context {token : Type} `{!Jose token}.
Variable environ : gmap string string.

(** Requests served one after the other, each at its own time; the log
    pairs every request with its outcome. *)
Fixpoint serve (reqs : list (Z * request token)) (st : store)
  : list (request token * result (response token)) * store :=
  match reqs with
  | [] => ([], st)
  | (now, req) :: rest =>
      let '(r, st1) := route environ now req st in
      let '(log, st2) := serve rest st1 in
      ((req, r) :: log, st2)
  end.

(** The dependency chain of a protected endpoint: the bearer credential
is extracted, then validated. *)
Definition authenticate (now : Z) (req : request token) : result string :=
  tok ← oauth2_scheme (authorization_of req);
  get_current_user environ now tok.

(** The ids handed out by the successful creates on [c] in a log, in
    call order. *)
Definition ids_assigned (c : collection)
    (log : list (request token * result (response token))) : list value :=
  omap (λ entry,
          match entry with
          | (req, Ok (Body (PDict d))) =>
              if is_create c req then d !! "id" else None
          | _ => None
          end) log.
(** One request seen from collection [c], as [call_summary] sees a call. *)
Definition request_summary (c : collection) (st : store)
    (req : request token) (out : result (response token) * store) : Prop :=
  db_step (db_of c st) (next_id_of c st)
          (db_of c out.2) (next_id_of c out.2) ∧
  ((is_create c req = true ∧
    ∃ d, out.1 = Ok (Body (PDict d)) ∧
         d !! "id" = Some (VInt (next_id_of c st)) ∧
         next_id_of c out.2 = next_id_of c st + 1)
   ∨ (next_id_of c out.2 = next_id_of c st ∧
      ids_assigned c [(req, out.1)] = [])).
End serving.

(** ** Error details *)

(** [needle] occurs in [hay]. *)
Fixpoint occurs (needle hay : string) : bool :=
  String.prefix needle hay
  || match hay with
     | EmptyString => false
     | String _ rest => occurs needle rest
     end.

(** The text [detail] mentions the integer [i], in decimal. *)
Definition mentions (detail : string) (i : Z) : Prop :=
  occurs (pretty i) detail = true.

(** ** Partial update *)

(** [new] is [old] with the supplied fields [fs] of the payload dict [d],
    other than ["id"], written over it; everything else is as in [old]. *)
Definition merged (old d : pydict) (fs : gset string) (new : pydict) : Prop :=
  new !! "id" = old !! "id" ∧
  (∀ k, k ∉ fs → new !! k = old !! k) ∧
  (∀ k v, k ∈ fs → k ≠ "id" → d !! k = Some v → new !! k = Some v).

(** ** Sample data *)

Definition alice : Student.t :=
  Student.mk None "CS" "a@b.com" {["major"; "email"]}.
Definition alice_renumbered : Student.t :=
  Student.mk (Some 99) "Math" "a@b.com" {["id"; "major"; "email"]}.
Definition algebra : Course.t :=
  Course.mk None "Algebra" "MATH101" 6 {["title"; "code"; "credits"]}.
Definition algebra_renumbered : Course.t :=
  Course.mk (Some 42) "Linear Algebra" "MATH101" 6
            {["id"; "title"; "code"; "credits"]}.

(** The store after one student and one course were created. *)
Definition sample_store : store :=
  (add_course algebra (add_student alice initial_store).2).2.

(** A token signed with the right key whose expiry has passed. *)
Definition stale_token : RefJose.token :=
  RefJose.Signed {["sub" := VStr "admin"; "exp" := VInt 4600]}
                 "HS256" "your-super-secret-jwt-key-for-fastapi".

(** The token the reference implementation issues at time 10000. *)
Definition fresh_token : RefJose.token :=
  RefJose.Signed {["sub" := VStr "admin"; "exp" := VInt 13600]}
                 "HS256" "your-super-secret-jwt-key-for-fastapi".

(** The outcomes of a log. *)
Definition outcomes {token}
    (log : list (request token * result (response token)))
  : list (result (response token)) := log.*2.

(** ** Further vocabulary for the handlers *)

(** [GetByID] on collection [c]. *)
Definition get_in (c : collection) (id : Z) : handler pyobj :=
  match c with
  | Students => get_student id
  | Courses => get_course id
  | Enrollments => get_enrollment id
  end.

(** The integer ids of a collection, in storage order. *)
Definition int_ids (db : list pydict) : list Z :=
  omap (λ r, match r !! "id" with
             | Some (VInt n) => Some n
             | _ => None
             end) db.

(** Ids are integers the counter has passed, and grow along the list. *)
Definition ids_ascending (db : list pydict) (next : Z) : Prop :=
  ids_issued db next ∧ StronglySorted Z.lt (int_ids db).

(** The keys of the records of a collection, as the models dump them. *)
Definition shape (c : collection) : gset string :=
  match c with
  | Students => {["id"; "major"; "email"]}
  | Courses => {["id"; "title"; "code"; "credits"]}
  | Enrollments => {["id"; "student_id"; "course_id"]}
  end.

(** Every record has exactly the keys of its model. *)
Definition well_shaped (c : collection) (db : list pydict) : Prop :=
  Forall (λ r, dom r = shape c) db.

(** The request is a POST, PUT or DELETE on a collection. *)
Definition is_mutating {token} (req : request token) : bool :=
  match req with
  | POST_students _ _ | PUT_student _ _ _ | DELETE_student _ _
  | POST_courses _ _ | PUT_course _ _ _ | DELETE_course _ _
  | POST_enrollments _ _ | DELETE_enrollment _ _ => true
  | _ => false
  end.

(** The endpoint body behind a protected route. *)
Definition endpoint_of {token} (req : request token)
  : option (handler pyobj) :=
  match req with
  | GET_root | POST_token _ => None
  | GET_students _ => Some get_students
  | POST_students _ d => Some (add_student d)
  | GET_student _ i => Some (get_student i)
  | PUT_student _ i d => Some (update_student i d)
  | DELETE_student _ i => Some (delete_student i)
  | GET_courses _ => Some get_courses
  | POST_courses _ d => Some (add_course d)
  | GET_course _ i => Some (get_course i)
  | PUT_course _ i d => Some (update_course i d)
  | DELETE_course _ i => Some (delete_course i)
  | GET_enrollments _ => Some get_enrollments
  | POST_enrollments _ d => Some (add_enrollment d)
  | GET_enrollment _ i => Some (get_enrollment i)
  | DELETE_enrollment _ i => Some (delete_enrollment i)
  end.

(** The lifetime [create_access_token] gives a token, in seconds. *)
Definition lifetime (expires_delta : option Z) : Z :=
  match expires_delta with
  | Some delta => if Z.eqb delta 0 then 3600 else delta
  | None => 3600
  end.

(** * Properties *)

(** ** The reference implementation meets the JWT interface *)

Lemma RefJose_decode_encode claims key algorithm algorithms now :
  algorithm ∈ algorithms →
  dom claims ⊆ {["sub"; "exp"]} →
  sub_is_str claims →
  (∃ e, claims !! "exp" = Some (VInt e) ∧ now ≤ e) →
  RefJose.decode (RefJose.encode claims key algorithm) key algorithms now
  = Ok claims.
Proof.
  intros Halg _ Hsub (e & He & Hle).
  unfold RefJose.decode, RefJose.encode, RefJose.expired, RefJose.sub_ok.
  rewrite bool_decide_true by done.
  rewrite String.eqb_refl, He. simpl.
  destruct (Z.ltb_spec e now) as [?|_]; [lia|].
  destruct (claims !! "sub") as [v|] eqn:Hv; [|done].
  by destruct (Hsub v Hv) as [s ->].
Qed.

Lemma RefJose_decode_sound tok key algorithms now claims :
  RefJose.decode tok key algorithms now = Ok claims →
  RefJose.get_unverified_claims tok = Some claims ∧
  exp_not_passed claims now ∧ sub_is_str claims.
Proof.
  destruct tok as [text|c alg tag]; simpl; [done|].
  destruct (negb (bool_decide (alg ∈ algorithms))); [done|].
  destruct (negb (String.eqb tag key)); [done|].
  destruct (RefJose.expired c now) eqn:Hexp; [done|].
  destruct (negb (RefJose.sub_ok c)) eqn:Hsub; [done|].
  intros [= <-]. split_and!; [done|..].
  - intros e He. unfold RefJose.expired in Hexp. rewrite He in Hexp.
    by apply Z.ltb_ge in Hexp.
  - intros v Hv. unfold RefJose.sub_ok in Hsub. rewrite Hv in Hsub.
    destruct v; try done. by eexists.
Qed.

Lemma RefJose_decode_raises tok key algorithms now e :
  RefJose.decode tok key algorithms now = Raise e → ∃ msg, e = JWTError msg.
Proof.
  destruct tok as [text|c alg tag]; simpl.
  - intros [= <-]. by eexists.
  - repeat case_match; intros [= <-]; by eexists.
Qed.

Global Instance RefJose_jose : Jose RefJose.token := {|
  jwt_encode := RefJose.encode;
  jwt_decode := RefJose.decode;
  jwt_get_unverified_claims := RefJose.get_unverified_claims;
  jwt_decode_encode := RefJose_decode_encode;
  jwt_decode_sound := RefJose_decode_sound;
  jwt_decode_raises := RefJose_decode_raises
|}.

(** ** Scalars, dicts and the scans *)

Lemma py_eq_VInt v n : py_eq v (VInt n) = true ↔ v = VInt n.
Proof.
  destruct v as [|m|s]; simpl; try (split; [discriminate | congruence]).
  rewrite Z.eqb_eq. split; congruence.
Qed.

Lemma py_eq_VInt_false v n : py_eq v (VInt n) = false ↔ v ≠ VInt n.
Proof.
  rewrite <- py_eq_VInt. destruct (py_eq v (VInt n)); split; congruence.
Qed.

Lemma ids_issued_keyed db next : ids_issued db next → keyed db.
Proof.
  intros H. eapply Forall_impl; [exact H|].
  intros r (n & Hn & _). rewrite Hn. by eexists.
Qed.

Lemma store_inv_keyed st c : store_inv st → keyed (db_of c st).
Proof. intros H. eapply ids_issued_keyed, (H c). Qed.

(** The guarded [del updated_data['id']] is a plain removal. *)
Lemma guarded_del_id (u : pydict) :
  (if bool_decide (is_Some (u !! "id")) then delete "id" u else u)
  = delete "id" u.
Proof.
  case_bool_decide as Hid; [done|].
  symmetry. apply delete_id. by apply eq_None_not_Some.
Qed.

(** Key by key, what the merge of an update payload leaves in a record:
    [fs] is the set of supplied fields, [d] the payload's full dict. *)
Lemma merged_lookup (old d : pydict) (fs : gset string) k :
  dict_update old (delete "id" (filter (λ kv, kv.1 ∈ fs) d)) !! k
  = if decide (k ≠ "id" ∧ k ∈ fs)
    then match d !! k with Some v => Some v | None => old !! k end
    else old !! k.
Proof.
  unfold dict_update. rewrite lookup_union, lookup_delete.
  destruct (decide ("id" = k)) as [<-|Hk].
  - rewrite decide_False by (intros [? ?]; congruence).
    by rewrite (left_id_L None _).
  - rewrite map_lookup_filter. simpl.
    destruct (decide (k ∈ fs)) as [Hin|Hout].
    + rewrite decide_True by (split; congruence).
      destruct (d !! k) as [v|]; simpl.
      * rewrite option_guard_True by done. simpl. by destruct (old !! k).
      * by rewrite (left_id_L None _).
    + rewrite decide_False by (intros [? ?]; contradiction).
      destruct (d !! k) as [v|]; simpl.
      * rewrite option_guard_False by done. simpl.
        by rewrite (left_id_L None _).
      * by rewrite (left_id_L None _).
Qed.

(** What a successful scan found: the first record with the id. *)
Lemma find_by_id_Some db target base idx r :
  find_by_id db target base = Ok (Some (idx, r)) →
  ∃ k, idx = (base + k)%nat ∧ db !! k = Some r ∧
       r !! "id" = Some (VInt target) ∧
       ∀ j r', (j < k)%nat → db !! j = Some r' →
               r' !! "id" ≠ Some (VInt target).
Proof.
  revert base. induction db as [|x rest IH]; intros base; simpl; [done|].
  unfold getitem. destruct (x !! "id") as [v|] eqn:Hv; simpl; [|done].
  destruct (py_eq v (VInt target)) eqn:Heq.
  - intros [= <- <-]. apply py_eq_VInt in Heq as ->.
    exists 0%nat. repeat split; [lia|done|]. intros j r' Hj. lia.
  - intros (k & -> & Hk & Hid & Hfirst)%IH.
    exists (S k). repeat split; [lia|done|done|].
    intros [|j] r' Hj; simpl.
    + intros [= <-]. rewrite Hv. apply py_eq_VInt_false in Heq. congruence.
    + apply Hfirst. lia.
Qed.

(** A scan that falls through saw no record with the id. *)
Lemma find_by_id_None db target base :
  find_by_id db target base = Ok None → ¬ has_id db target.
Proof.
  revert base. induction db as [|x rest IH]; intros base; simpl.
  - intros _ (r & Hr & _). by apply elem_of_nil in Hr.
  - unfold getitem. destruct (x !! "id") as [v|] eqn:Hv; simpl; [|done].
    destruct (py_eq v (VInt target)) eqn:Heq; [done|].
    intros Hrest%IH (r & [->|Hr]%elem_of_cons & Hid).
    + apply py_eq_VInt_false in Heq. congruence.
    + apply Hrest. by exists r.
Qed.

(** On keyed collections the scan does not raise, and finds the id exactly
    when it is there. *)
Lemma find_by_id_total db target base :
  keyed db →
  (has_id db target ∧
   ∃ idx r, find_by_id db target base = Ok (Some (idx, r)))
  ∨ (¬ has_id db target ∧ find_by_id db target base = Ok None).
Proof.
  intros Hk. revert base. induction Hk as [|x rest [v Hv] _ IH]; intros base.
  - right. split; [|done]. intros (r & Hr & _). by apply elem_of_nil in Hr.
  - simpl. unfold getitem. rewrite Hv. simpl.
    destruct (py_eq v (VInt target)) eqn:Heq.
    + left. apply py_eq_VInt in Heq as ->. split; [|by eauto].
      exists x. split; [left|done].
    + destruct (IH (S base)) as [[(r & Hr & Hid) Hfound]|[Hno Hnone]].
      * left. split; [|done]. exists r. split; [by right|done].
      * right. split; [|done].
        intros (r & [->|Hr]%elem_of_cons & Hid).
        -- apply py_eq_VInt_false in Heq. congruence.
        -- apply Hno. by exists r.
Qed.

(** ** Update *)

Ltac solve_update target Hkeyed Hhas :=
  let Hf := fresh "Hf" in
  let Hno := fresh "Hno" in
  let idx := fresh "idx" in
  let old := fresh "old" in
  let k := fresh "k" in
  unfold try_;
  destruct (find_by_id_total _ target 0%nat Hkeyed)
    as [[_ (idx & old & Hf)]|[Hno _]]; [|by destruct Hno];
  rewrite Hf; rewrite guarded_del_id;
  apply find_by_id_Some in Hf as (k & -> & ? & ? & _);
  exists k, old; eexists; split_and!; [done|done|reflexivity|..];
  [ by rewrite merged_lookup, decide_False by (intros [? ?]; congruence)
  | let f := fresh "f" in
    let Hout := fresh "Hout" in
    intros f Hout;
    by rewrite merged_lookup, decide_False by (intros [? ?]; contradiction)
  | let f := fresh "f" in
    let v := fresh "v" in
    let Hd := fresh "Hd" in
    intros f v ? ? Hd;
    by rewrite merged_lookup, decide_True, Hd by (split; assumption) ].

Lemma update_student_merges st student_id student_data :
  keyed (students_db st) → has_id (students_db st) student_id →
  ∃ idx old new,
    students_db st !! idx = Some old ∧
    old !! "id" = Some (VInt student_id) ∧
    update_student student_id student_data st
    = (Ok (PDict new), set_students_db (<[idx := new]> (students_db st)) st) ∧
    merged old (Student.dict student_data)
           (Student.fields_set student_data) new.
Proof.
  intros Hkeyed Hhas. unfold update_student, merged,
    Student.dict_exclude_unset.
  solve_update student_id Hkeyed Hhas.
Qed.

Lemma update_course_merges st course_id course_data :
  keyed (courses_db st) → has_id (courses_db st) course_id →
  ∃ idx old new,
    courses_db st !! idx = Some old ∧
    old !! "id" = Some (VInt course_id) ∧
    update_course course_id course_data st
    = (Ok (PDict new), set_courses_db (<[idx := new]> (courses_db st)) st) ∧
    merged old (Course.dict course_data)
           (Course.fields_set course_data) new.
Proof.
  intros Hkeyed Hhas. unfold update_course, merged,
    Course.dict_exclude_unset.
  solve_update course_id Hkeyed Hhas.
Qed.

(** C1. For every stored Student or Course record and every update payload,
    [Update(id, payload)] succeeds on the first record with that id and
    writes into it exactly the fields the payload supplies, other than
    ["id"]: a field the payload does not supply keeps its prior value, and
    the stored id is kept also when the payload carries one. The other
    records, collections and counters are as before. *)
Theorem update_merges_supplied_fields :
  (∀ st student_id student_data,
     keyed (students_db st) → has_id (students_db st) student_id →
     ∃ idx old new,
       students_db st !! idx = Some old ∧
       old !! "id" = Some (VInt student_id) ∧
       update_student student_id student_data st
       = (Ok (PDict new),
          set_students_db (<[idx := new]> (students_db st)) st) ∧
       merged old (Student.dict student_data)
              (Student.fields_set student_data) new)
  ∧
  (∀ st course_id course_data,
     keyed (courses_db st) → has_id (courses_db st) course_id →
     ∃ idx old new,
       courses_db st !! idx = Some old ∧
       old !! "id" = Some (VInt course_id) ∧
       update_course course_id course_data st
       = (Ok (PDict new),
          set_courses_db (<[idx := new]> (courses_db st)) st) ∧
       merged old (Course.dict course_data)
              (Course.fields_set course_data) new).
Proof.
  split.
  - apply update_student_merges.
  - apply update_course_merges.
Qed.

Lemma update_merges_supplied_fields_witness :
  (keyed (students_db sample_store) ∧ has_id (students_db sample_store) 1 ∧
   ∃ idx old new,
     students_db sample_store !! idx = Some old ∧
     old !! "id" = Some (VInt 1) ∧
     update_student 1 alice_renumbered sample_store
     = (Ok (PDict new),
        set_students_db (<[idx := new]> (students_db sample_store))
                        sample_store) ∧
     merged old (Student.dict alice_renumbered)
            (Student.fields_set alice_renumbered) new)
  ∧
  (keyed (courses_db sample_store) ∧ has_id (courses_db sample_store) 1 ∧
   ∃ idx old new,
     courses_db sample_store !! idx = Some old ∧
     old !! "id" = Some (VInt 1) ∧
     update_course 1 algebra_renumbered sample_store
     = (Ok (PDict new),
        set_courses_db (<[idx := new]> (courses_db sample_store))
                       sample_store) ∧
     merged old (Course.dict algebra_renumbered)
            (Course.fields_set algebra_renumbered) new).
Proof.
  split; split_and!.
  - repeat constructor. by eexists.
  - eexists. split; [left|]. reflexivity.
  - apply (proj1 update_merges_supplied_fields sample_store 1
             alice_renumbered).
    + repeat constructor. by eexists.
    + eexists. split; [left|]. reflexivity.
  - repeat constructor. by eexists.
  - eexists. split; [left|]. reflexivity.
  - apply (proj2 update_merges_supplied_fields sample_store 1
             algebra_renumbered).
    + repeat constructor. by eexists.
    + eexists. split; [left|]. reflexivity.
Defined.

(** The update of the sample student, run: the id stays 1 although the
    payload says 99, and the major is overwritten. *)
Example update_sample_student :
  ∃ new,
    (update_student 1 alice_renumbered sample_store).1 = Ok (PDict new) ∧
         new !! "id" = Some (VInt 1) ∧
         new !! "major" = Some (VStr "Math") ∧
         new !! "email" = Some (VStr "a@b.com").
Proof. eexists. split; [reflexivity|]. by vm_compute. Qed.

(** ** Token service *)

Section token_service_properties.
Context {token : Type} `{!Jose token}.
Variable environ : gmap string string.

Lemma login_valid now form st :
  OAuth2PasswordRequestForm.username form = VALID_USERNAME →
  OAuth2PasswordRequestForm.password form = VALID_PASSWORD →
  login_for_access_token environ now form st
  = (Ok (Token.mk
           (create_access_token environ now {["sub" := VStr VALID_USERNAME]}
              (Some (timedelta_minutes ACCESS_TOKEN_EXPIRE_MINUTES)))
           "bearer"), st).
Proof.
  intros Hu Hp. unfold login_for_access_token. rewrite Hu, Hp.
  by rewrite !String.eqb_refl.
Qed.

Lemma login_invalid now form st :
  ¬ (OAuth2PasswordRequestForm.username form = VALID_USERNAME ∧
     OAuth2PasswordRequestForm.password form = VALID_PASSWORD) →
  login_for_access_token environ now form st
  = (Raise (HTTPException HTTP_401_UNAUTHORIZED
              "Incorrect username or password" bearer_challenge), st).
Proof.
  intros Hbad. unfold login_for_access_token.
  destruct (String.eqb_spec
              (OAuth2PasswordRequestForm.username form) VALID_USERNAME),
           (String.eqb_spec
              (OAuth2PasswordRequestForm.password form) VALID_PASSWORD);
    simpl; try done.
  by destruct Hbad.
Qed.

(** The claims of a token issued at [now]. *)
Lemma issued_claims_decode now now' :
  now' ≤ now + 3600 →
  jwt_decode
    (create_access_token environ now {["sub" := VStr VALID_USERNAME]}
       (Some (timedelta_minutes ACCESS_TOKEN_EXPIRE_MINUTES)))
    (SECRET_KEY environ) [ALGORITHM] now'
  = Ok (dict_update {["sub" := VStr VALID_USERNAME]}
                    {["exp" := VInt (now + 3600)]}).
Proof.
  intros Hle. unfold create_access_token. simpl.
  apply jwt_decode_encode.
  - by left.
  - unfold dict_update. rewrite dom_union_L, !dom_singleton_L. set_solver.
  - intros v. unfold dict_update.
    rewrite lookup_union_r by done. rewrite lookup_singleton_eq.
    intros [= <-]. by eexists.
  - exists (now + 3600). split; [|done].
    unfold dict_update. by rewrite lookup_union_l', lookup_singleton_eq.
Qed.

(** An expired token does not decode, whatever its signature. *)
Lemma expired_decode_raises now tok key algorithms claims e :
  jwt_get_unverified_claims tok = Some claims →
  claims !! "exp" = Some (VInt e) → e < now →
  ∃ msg, jwt_decode tok key algorithms now = Raise (JWTError msg).
Proof.
  intros Hclaims Hexp Hlt.
  destruct (jwt_decode tok key algorithms now) as [c|err] eqn:Hdec.
  - apply jwt_decode_sound in Hdec as (Hc & Hnot & _).
    rewrite Hclaims in Hc. injection Hc as <-.
    specialize (Hnot e Hexp). lia.
  - apply jwt_decode_raises in Hdec as [msg ->]. by eexists.
Qed.
(** C7. [IssueToken(username, password)] succeeds if and only if both the
    username and the password equal the fixed configured pair; on any
    mismatch it raises one and the same 401 exception, whichever of the two
    was wrong, and the store is left as it was. *)
Theorem login_iff_fixed_credentials now form st :
  ((∃ t, (login_for_access_token environ now form st).1 = Ok t)
   ↔ OAuth2PasswordRequestForm.username form = VALID_USERNAME ∧
     OAuth2PasswordRequestForm.password form = VALID_PASSWORD)
  ∧ ((∃ t, login_for_access_token environ now form st = (Ok t, st) ∧
           Token.token_type t = "bearer")
     ∨ login_for_access_token environ now form st
       = (Raise (HTTPException HTTP_401_UNAUTHORIZED
                   "Incorrect username or password" bearer_challenge), st)).
Proof.
  destruct (decide (OAuth2PasswordRequestForm.username form = VALID_USERNAME ∧
                    OAuth2PasswordRequestForm.password form = VALID_PASSWORD))
    as [[Hu Hp]|Hbad].
  - rewrite (login_valid now form st Hu Hp). split.
    + split; [done|]. intros _. by eexists.
    + left. by eexists.
  - rewrite (login_invalid now form st Hbad). split.
    + split; [|done]. by intros [t [=]].
    + by right.
Qed.

(** C2. With the valid credentials, the token that [IssueToken] returns
    authenticates as the username that was presented, at any time up to
    its expiry 60 minutes after issuance, so in particular at once. *)
Theorem issue_then_authenticate now now' form st :
  OAuth2PasswordRequestForm.username form = VALID_USERNAME →
  OAuth2PasswordRequestForm.password form = VALID_PASSWORD →
  now' ≤ now + 3600 →
  ∃ t, login_for_access_token environ now form st = (Ok t, st) ∧
       get_current_user environ now' (Token.access_token t)
       = Ok (OAuth2PasswordRequestForm.username form).
Proof.
  intros Hu Hp Hle. eexists. split; [by apply login_valid|].
  simpl. unfold get_current_user.
  rewrite (issued_claims_decode now now' Hle). simpl.
  unfold dict_update. rewrite lookup_union_r by done.
  rewrite lookup_singleton_eq. simpl. by rewrite Hu.
Qed.

(** C5. A token whose encoded expiry is before the validation time is
    rejected with the 401 credentials exception, under any signature. *)
Theorem expired_token_unauthorized now tok claims e :
  jwt_get_unverified_claims tok = Some claims →
  claims !! "exp" = Some (VInt e) →
  e < now →
  get_current_user environ now tok = Raise credentials_exception.
Proof.
  intros Hclaims Hexp Hlt. unfold get_current_user.
  destruct (expired_decode_raises now tok (SECRET_KEY environ) [ALGORITHM]
              claims e) as [msg ->]; done.
Qed.

End token_service_properties.

Lemma login_iff_fixed_credentials_witness :
  (∃ t, (login_for_access_token (token := RefJose.token) ∅ 1000
           (OAuth2PasswordRequestForm.mk "admin" "password123")
           initial_store).1 = Ok t)
  ∧ login_for_access_token (token := RefJose.token) ∅ 1000
      (OAuth2PasswordRequestForm.mk "admin" "letmein") initial_store
    = (Raise (HTTPException 401 "Incorrect username or password"
                [("WWW-Authenticate", "Bearer")]), initial_store).
Proof.
  split.
  - apply (proj1 (login_iff_fixed_credentials (token := RefJose.token) ∅ 1000
                    (OAuth2PasswordRequestForm.mk "admin" "password123")
                    initial_store)).
    split; reflexivity.
  - destruct (proj2 (login_iff_fixed_credentials (token := RefJose.token)
                       ∅ 1000
                       (OAuth2PasswordRequestForm.mk "admin" "letmein")
                       initial_store)) as [(t & Ht & _)|Hraise].
    + discriminate Ht.
    + exact Hraise.
Defined.

Lemma issue_then_authenticate_witness :
  ∃ t, login_for_access_token (token := RefJose.token) ∅ 1000
         (OAuth2PasswordRequestForm.mk "admin" "password123") initial_store
       = (Ok t, initial_store) ∧
       get_current_user ∅ 1000 (Token.access_token t) = Ok "admin".
Proof.
  apply (issue_then_authenticate (token := RefJose.token) ∅ 1000 1000
           (OAuth2PasswordRequestForm.mk "admin" "password123")
           initial_store); [reflexivity|reflexivity|lia].
Defined.

Lemma expired_token_unauthorized_witness :
  get_current_user ∅ 5000 stale_token = Raise credentials_exception.
Proof.
  apply (expired_token_unauthorized (token := RefJose.token) ∅ 5000
           stale_token {["sub" := VStr "admin"; "exp" := VInt 4600]} 4600);
    [reflexivity|reflexivity|lia].
Defined.

(** The same stale claims under a tag that is not the server's key: the
    rejection is the same. *)
Example forged_stale_token_rejected :
  get_current_user ∅ 5000
    (RefJose.Signed {["sub" := VStr "admin"; "exp" := VInt 4600]}
                    "HS256" "not-the-key")
  = Raise credentials_exception.
Proof. reflexivity. Qed.

(** ** Delete and the existence check *)

Lemma without_id_others db target kept :
  without_id db target = Ok kept → kept = others target db.
Proof.
  revert kept. induction db as [|x rest IH]; intros kept; simpl.
  - by intros [= <-].
  - unfold getitem. destruct (x !! "id") as [v|] eqn:Hv; simpl; [|done].
    destruct (without_id rest target) as [kept'|]; simpl; [|done].
    intros [= <-]. rewrite (IH kept' eq_refl). unfold others.
    rewrite filter_cons. rewrite Hv.
    destruct (py_eq v (VInt target)) eqn:Heq; simpl.
    + apply py_eq_VInt in Heq as ->. by rewrite decide_False by (by intros []).
    + apply py_eq_VInt_false in Heq.
      by rewrite decide_True by congruence.
Qed.

Lemma without_id_total db target :
  keyed db → without_id db target = Ok (others target db).
Proof.
  intros Hk. cut (∃ kept, without_id db target = Ok kept).
  { intros [kept Hkept]. by rewrite Hkept, (without_id_others _ _ _ Hkept). }
  induction Hk as [|x rest [v Hv] _ [kept IH]]; simpl; [by eexists|].
  unfold getitem. rewrite Hv, IH. simpl. by eexists.
Qed.

Lemma others_has_id i j db : has_id (others i db) j → has_id db j ∧ j ≠ i.
Proof.
  intros (r & [Hne Hr]%list_elem_of_filter & Hid). split.
  - by exists r.
  - intros ->. by apply Hne.
Qed.

Lemma others_Forall (P : pydict → Prop) i db :
  Forall P db → Forall P (others i db).
Proof.
  rewrite !Forall_forall. intros H r [_ Hr]%list_elem_of_filter. by apply H.
Qed.

Lemma others_keyed i db : keyed db → keyed (others i db).
Proof. apply others_Forall. Qed.

(** Dropping nothing leaves the list as it was. *)
Lemma others_same_length i db :
  length (others i db) = length db → others i db = db.
Proof.
  unfold others. induction db as [|x rest IH]; [done|].
  rewrite filter_cons. case_decide; simpl.
  - intros [= Hlen]. by rewrite IH.
  - intros Hlen.
    pose proof (length_filter (λ r, r !! "id" ≠ Some (VInt i)) rest).
    lia.
Qed.

Lemma others_absent i db : ¬ has_id db i → others i db = db.
Proof.
  unfold others. induction db as [|x rest IH]; intros Hno; [done|].
  rewrite filter_cons. rewrite decide_True.
  - f_equal. apply IH. intros (r & Hr & Hid). apply Hno. exists r.
    split; [by right|done].
  - intros Hid. apply Hno. exists x. split; [left|done].
Qed.

Lemma others_present i db :
  has_id db i → (length (others i db) < length db)%nat.
Proof.
  intros (r & Hr & Hid). unfold others.
  eapply length_filter_lt; [exact Hr|]. by intros [].
Qed.

Lemma any_id_eq_spec db target :
  keyed db →
  (has_id db target ∧ any_id_eq db target = Ok true)
  ∨ (¬ has_id db target ∧ any_id_eq db target = Ok false).
Proof.
  intros Hk. induction Hk as [|x rest [v Hv] _ IH].
  - right. split; [|done]. intros (r & Hr & _). by apply elem_of_nil in Hr.
  - simpl. unfold getitem. rewrite Hv. simpl.
    destruct (py_eq v (VInt target)) eqn:Heq.
    + left. apply py_eq_VInt in Heq as ->. split; [|done].
      exists x. split; [left|done].
    + destruct IH as [[(r & Hr & Hid) Hfound]|[Hno Hnone]].
      * left. split; [|done]. exists r. split; [by right|done].
      * right. split; [|done].
        intros (r & [->|Hr]%elem_of_cons & Hid).
        -- apply py_eq_VInt_false in Heq. congruence.
        -- apply Hno. by exists r.
Qed.

Lemma store_eta st :
  {| students_db := students_db st; courses_db := courses_db st;
     enrollments_db := enrollments_db st;
     next_student_id := next_student_id st;
     next_course_id := next_course_id st;
     next_enrollment_id := next_enrollment_id st |} = st.
Proof. by destruct st. Qed.

(** What [Delete(id)] does on a keyed collection. *)
Lemma delete_in_spec c i st :
  keyed (db_of c st) →
  (has_id (db_of c st) i ∧
   ∃ st', delete_in c i st = (Ok PNone, st') ∧
          db_of c st' = others i (db_of c st))
  ∨ (¬ has_id (db_of c st) i ∧
     delete_in c i st = (not_found (not_found_detail c), st)).
Proof.
  intros Hk.
  destruct (decide (length (others i (db_of c st)) = length (db_of c st)))
    as [Hlen|Hlen].
  - right.
    assert (¬ has_id (db_of c st) i) as Hno.
    { intros Hhas%(others_present i). lia. }
    split; [done|].
    destruct c; simpl in *;
      unfold delete_student, delete_course, delete_enrollment, try_;
      rewrite (without_id_total _ i Hk); simpl;
      rewrite Hlen, Nat.eqb_refl, (others_same_length _ _ Hlen);
      unfold set_students_db, set_courses_db, set_enrollments_db;
      by rewrite store_eta.
  - left.
    assert (has_id (db_of c st) i) as Hhas.
    { destruct (any_id_eq_spec _ i Hk) as [[? _]|[Hno _]]; [done|].
      by rewrite (others_absent _ _ Hno) in Hlen. }
    split; [done|].
    destruct c; simpl in *;
      unfold delete_student, delete_course, delete_enrollment, try_;
      rewrite (without_id_total _ i Hk); simpl;
      apply Nat.eqb_neq in Hlen; rewrite Hlen;
      by eexists.
Qed.

(** ** Every handler, seen from every collection *)

Lemma summary_same created c st r :
  (created = false ∨ ∃ e, r = Raise e) →
  call_summary created c st (r, st).
Proof. intros H. split; [apply step_same|]. right. by split. Qed.

Ltac frame_summary :=
  split; [apply step_same | right; split; [done | by left]].

Lemma get_students_summary c st :
  call_summary false c st (get_students st).
Proof. by apply summary_same; left. Qed.

Lemma get_courses_summary c st :
  call_summary false c st (get_courses st).
Proof. by apply summary_same; left. Qed.

Lemma get_enrollments_summary c st :
  call_summary false c st (get_enrollments st).
Proof. by apply summary_same; left. Qed.

Ltac solve_get :=
  unfold try_;
  match goal with
  | |- context [find_by_id ?db ?i ?b] =>
      destruct (find_by_id db i b) as [[[? ?]|]|]
  end; by apply summary_same; left.

Lemma get_student_summary c i st :
  call_summary false c st (get_student i st).
Proof. unfold get_student. solve_get. Qed.

Lemma get_course_summary c i st :
  call_summary false c st (get_course i st).
Proof. unfold get_course. solve_get. Qed.

Lemma get_enrollment_summary c i st :
  call_summary false c st (get_enrollment i st).
Proof. unfold get_enrollment. solve_get. Qed.

Ltac solve_create :=
  split;
  [ apply step_create; apply lookup_insert_eq
  | left; split; [done|]; eexists; split_and!;
    [reflexivity | apply lookup_insert_eq | done] ].

Lemma add_student_summary c d st :
  call_summary (bool_decide (c = Students)) c st (add_student d st).
Proof.
  destruct c; unfold add_student; simpl;
    [solve_create | frame_summary | frame_summary].
Qed.

Lemma add_course_summary c d st :
  call_summary (bool_decide (c = Courses)) c st (add_course d st).
Proof.
  destruct c; unfold add_course; simpl;
    [frame_summary | solve_create | frame_summary].
Qed.

Lemma add_enrollment_summary c d st :
  call_summary (bool_decide (c = Enrollments)) c st (add_enrollment d st).
Proof.
  unfold add_enrollment, try_.
  destruct (any_id_eq (students_db st) _) as [student_exists|];
    [|by apply summary_same; right; eexists].
  destruct (any_id_eq (courses_db st) _) as [course_exists|];
    [|by apply summary_same; right; eexists].
  destruct student_exists; simpl;
    [|by apply summary_same; right; eexists].
  destruct course_exists; simpl;
    [|by apply summary_same; right; eexists].
  destruct c; simpl; [frame_summary | frame_summary | solve_create].
Qed.

Ltac solve_update_summary :=
  unfold try_;
  match goal with
  | |- context [find_by_id ?db ?i ?b] =>
      let Hf := fresh "Hf" in
      destruct (find_by_id db i b) as [[[? ?]|]|] eqn:Hf;
      [ apply find_by_id_Some in Hf as (? & -> & ? & ? & _)
      | by apply summary_same; left
      | by apply summary_same; left ]
  end;
  rewrite guarded_del_id; simpl.

Lemma update_student_summary c i d st :
  call_summary false c st (update_student i d st).
Proof.
  unfold update_student, Student.dict_exclude_unset. solve_update_summary.
  destruct c; simpl; [|frame_summary|frame_summary].
  split; [|right; split; [done | by left]].
  eapply step_update; [done|].
  by rewrite merged_lookup, decide_False by (intros [? ?]; congruence).
Qed.

Lemma update_course_summary c i d st :
  call_summary false c st (update_course i d st).
Proof.
  unfold update_course, Course.dict_exclude_unset. solve_update_summary.
  destruct c; simpl; [frame_summary| |frame_summary].
  split; [|right; split; [done | by left]].
  eapply step_update; [done|].
  by rewrite merged_lookup, decide_False by (intros [? ?]; congruence).
Qed.

Ltac solve_delete_summary c :=
  unfold try_;
  match goal with
  | |- context [without_id ?db ?i] =>
      let Hw := fresh "Hw" in
      destruct (without_id db i) as [?|] eqn:Hw;
      [ apply without_id_others in Hw as ->
      | by apply summary_same; left ]
  end;
  simpl; case_match;
  (destruct c; simpl;
   first [ frame_summary
         | split; [apply step_delete | right; split; [done | by left]] ]).

Lemma delete_student_summary c i st :
  call_summary false c st (delete_student i st).
Proof. unfold delete_student. solve_delete_summary c. Qed.

Lemma delete_course_summary c i st :
  call_summary false c st (delete_course i st).
Proof. unfold delete_course. solve_delete_summary c. Qed.

Lemma delete_enrollment_summary c i st :
  call_summary false c st (delete_enrollment i st).
Proof. unfold delete_enrollment. solve_delete_summary c. Qed.

(** ** The authentication dependency and the router *)

Create HintDb summaries.
#[local] Hint Resolve get_students_summary get_student_summary
  add_student_summary update_student_summary delete_student_summary
  get_courses_summary get_course_summary add_course_summary
  update_course_summary delete_course_summary get_enrollments_summary
  get_enrollment_summary add_enrollment_summary delete_enrollment_summary
  : summaries.

Section dependency_properties.
Context {token : Type} `{!Jose token}.
Variable environ : gmap string string.

(** Validation fails in one way only. *)
Lemma get_current_user_raises now tok e :
  get_current_user environ now tok = Raise e → e = credentials_exception.
Proof.
  unfold get_current_user.
  destruct (jwt_decode tok (SECRET_KEY environ) [ALGORITHM] now)
    as [payload|err] eqn:Hdec;
    simpl.
  - destruct (payload !! "sub") as [[|n|s]|]; simpl;
      repeat case_match; by intros [= <-].
  - apply jwt_decode_raises in Hdec as [msg ->]. simpl. by intros [= <-].
Qed.

(** Validation succeeds for the configured account only. *)
Lemma get_current_user_Ok now tok user :
  get_current_user environ now tok = Ok user → user = VALID_USERNAME.
Proof.
  unfold get_current_user.
  destruct (except_JWTError _) as [[[u|]]|]; simpl; [|done|done].
  destruct (String.eqb_spec u VALID_USERNAME) as [->|]; simpl; [|done].
  by intros [= <-].
Qed.

(** A failed authentication is a 401 with the bearer challenge. *)
Lemma authenticate_raises now req e :
  authenticate environ now req = Raise e →
  ∃ detail,
    e = HTTPException HTTP_401_UNAUTHORIZED detail bearer_challenge.
Proof.
  unfold authenticate, oauth2_scheme.
  destruct (authorization_of req) as [tok|]; simpl.
  - intros ->%get_current_user_raises. by eexists.
  - intros [= <-]. by eexists.
Qed.

(** The dependency either stops the request or lets the endpoint run. *)
Lemma depends_cases now (a : option token) (h : handler pyobj) st :
  (∃ e, (tok ← oauth2_scheme a; get_current_user environ now tok)
        = Raise e ∧
        as_body (token := token)
          (depends_current_user environ now a (λ _, h)) st = (Raise e, st))
  ∨ (∃ user,
       (tok ← oauth2_scheme a; get_current_user environ now tok) = Ok user ∧
       as_body (token := token)
         (depends_current_user environ now a (λ _, h)) st = as_body h st).
Proof.
  unfold as_body, depends_current_user, try_.
  destruct (tok ← oauth2_scheme a; get_current_user environ now tok)
    as [user|e].
  - right. by eexists.
  - left. by eexists.
Qed.

Lemma depends_summary c now a (h : handler pyobj) req st :
  call_summary (is_create c req) c st (h st) →
  request_summary c st req
    (as_body (token := token)
       (depends_current_user environ now a (λ _, h)) st).
Proof.
  intros [Hstep Hcount].
  destruct (depends_cases now a h st) as [(e & _ & ->)|(user & _ & ->)].
  - split; [apply step_same|]. right. by split.
  - unfold as_body. destruct (h st) as [r st'] eqn:Hh. simpl in *.
    split; [done|].
    destruct Hcount as [(Hc & d & -> & Hid & Hnext)|[Hnext Hno]].
    + left. split; [done|]. by exists d.
    + right. split; [done|]. unfold ids_assigned. simpl.
      destruct Hno as [->|[e ->]]; [|done].
      by destruct r as [[]|].
Qed.

Lemma route_summary c now req st :
  request_summary c st req (route environ now req st).
Proof.
  destruct req; simpl;
    try (apply depends_summary; destruct c; simpl; by auto with summaries).
  - split; [apply step_same|]. right. split; [done|]. by destruct c.
  - unfold login_for_access_token.
    destruct (negb _ || negb _); simpl;
      (split; [apply step_same|]; right; split; [done|]); by destruct c.
  - apply depends_summary.
    replace (is_create c _) with (bool_decide (c = Students))
      by (by destruct c).
    apply add_student_summary.
  - apply depends_summary.
    replace (is_create c _) with (bool_decide (c = Courses))
      by (by destruct c).
    apply add_course_summary.
  - apply depends_summary.
    replace (is_create c _) with (bool_decide (c = Enrollments))
      by (by destruct c).
    apply add_enrollment_summary.
Qed.
End dependency_properties.

(** ** Steps of a collection *)

Lemma db_step_counter db next db' next' :
  db_step db next db' next' → next' = next ∨ next' = next + 1.
Proof. destruct 1; auto. Qed.

(** While the counter stands still, no id appears in the collection. *)
Lemma db_step_no_new_id db next db' :
  db_step db next db' next →
  keyed db →
  keyed db' ∧ ∀ i, has_id db' i → has_id db i.
Proof.
  intros Hstep Hk. remember next as next' eqn:Hnext in Hstep at 2.
  destruct Hstep as [|d Hd|idx old new Hold Hid|j].
  - done.
  - lia.
  - split.
    + apply Forall_insert; [done|]. rewrite Hid.
      by eapply (Forall_lookup_1 _ _ _ _ Hk).
    + intros i (r & Hr & Hri).
      apply list_elem_of_lookup in Hr as [k Hr].
      apply list_lookup_insert_Some in Hr as [(_ & <- & _)|[_ Hr]].
      * exists old. split; [by eapply list_elem_of_lookup_2|congruence].
      * exists r. split; [by eapply list_elem_of_lookup_2|done].
  - split; [by apply others_keyed|].
    intros i Hi. by apply others_has_id in Hi as [? _].
Qed.

Lemma db_step_ids_issued db next db' next' :
  db_step db next db' next' →
  1 ≤ next → ids_issued db next →
  1 ≤ next' ∧ ids_issued db' next'.
Proof.
  intros Hstep Hone Hiss.
  destruct Hstep as [|d Hd|idx old new Hold Hid|j].
  - done.
  - split; [lia|]. apply Forall_app. split.
    + eapply Forall_impl; [exact Hiss|].
      intros r (n & Hn & Hrange). exists n. split; [done|lia].
    + constructor; [|constructor]. exists next. split; [done|lia].
  - split; [done|]. apply Forall_insert; [done|]. rewrite Hid.
    by eapply (Forall_lookup_1 _ _ _ _ Hiss).
  - split; [done|]. by apply others_Forall.
Qed.

Lemma initial_store_inv : store_inv initial_store.
Proof. intros c. destruct c; (split; simpl; [lia | constructor]). Qed.

Section serving_properties.
Context {token : Type} `{!Jose token}.
Variable environ : gmap string string.

Lemma serve_cons now req rest st :
  serve environ ((now, req) :: rest) st
  = ((req, (route environ now req st).1)
       :: (serve environ rest (route environ now req st).2).1,
     (serve environ rest (route environ now req st).2).2).
Proof.
  simpl. destruct (route environ now req st) as [r st1]. simpl.
  by destruct (serve environ rest st1).
Qed.

(** The invariant holds in every store the server can reach. *)
Lemma route_store_inv now req st :
  store_inv st → store_inv (route environ now req st).2.
Proof.
  intros Hinv c. destruct (Hinv c) as [Hone Hiss].
  destruct (route_summary environ c now req st) as [Hstep _].
  by eapply db_step_ids_issued.
Qed.

Lemma serve_store_inv reqs st :
  store_inv st → store_inv (serve environ reqs st).2.
Proof.
  revert st. induction reqs as [|[now req] rest IH]; intros st Hinv; [done|].
  rewrite serve_cons. simpl. by apply IH, route_store_inv.
Qed.

Lemma route_counter c now req st :
  next_id_of c (route environ now req st).2 = next_id_of c st
  ∨ (is_create c req = true ∧
     next_id_of c (route environ now req st).2 = next_id_of c st + 1).
Proof.
  destruct (route_summary environ c now req st)
    as [_ [(Hc & d & _ & _ & Hnext)|[Hnext _]]]; auto.
Qed.

Lemma serve_counter_mono c reqs st :
  next_id_of c st ≤ next_id_of c (serve environ reqs st).2.
Proof.
  revert st. induction reqs as [|[now req] rest IH]; intros st; [done|].
  rewrite serve_cons. simpl.
  specialize (IH (route environ now req st).2).
  destruct (route_counter c now req st) as [Heq|[_ Heq]]; lia.
Qed.

(** The ids handed out along a run are the values the counter went
    through. *)
Lemma serve_ids_assigned c reqs st :
  ids_assigned c (serve environ reqs st).1
  = VInt <$> seqZ (next_id_of c st)
                  (next_id_of c (serve environ reqs st).2 - next_id_of c st).
Proof.
  revert st. induction reqs as [|[now req] rest IH]; intros st.
  - simpl. by rewrite Z.sub_diag.
  - rewrite serve_cons. simpl.
    pose proof (serve_counter_mono c rest (route environ now req st).2)
      as Hmono.
    specialize (IH (route environ now req st).2).
    destruct (route_summary environ c now req st)
      as [_ [(Hc & d & Hr & Hid & Hnext)|[Hnext Hnone]]].
    + unfold ids_assigned in *. simpl. rewrite Hr, Hc, Hid. simpl.
      rewrite IH, Hnext. rewrite (seqZ_cons (next_id_of c st)) by lia.
      simpl. do 3 f_equal; lia.
    + unfold ids_assigned in *. simpl in *.
      destruct (match (route environ now req st).1 with
                | Ok (Body (PDict d)) =>
                    if is_create c req then d !! "id" else None
                | _ => None
                end); [done|].
      by rewrite IH, Hnext.
Qed.

(** Requests that create nothing in [c] bring no id into [c]. *)
Lemma serve_no_new_id c reqs st :
  Forall (λ nr, is_create c nr.2 = false) reqs →
  keyed (db_of c st) →
  keyed (db_of c (serve environ reqs st).2) ∧
  ∀ i, has_id (db_of c (serve environ reqs st).2) i → has_id (db_of c st) i.
Proof.
  intros Hreqs. revert st.
  induction Hreqs as [|[now req] rest Hreq _ IH]; intros st Hk; [done|].
  rewrite serve_cons. simpl in *.
  destruct (route_summary environ c now req st)
    as [Hstep [(Hc & _)|[Hnext _]]]; [congruence|].
  rewrite Hnext in Hstep.
  destruct (db_step_no_new_id _ _ _ Hstep Hk) as [Hk1 Hsub1].
  destruct (IH _ Hk1) as [Hk2 Hsub2]. split; [done|].
  intros i Hi. by apply Hsub1, Hsub2.
Qed.
End serving_properties.

(** ** Authentication, the counters and delete *)

Section store_theorems.
Context {token : Type} `{!Jose token}.
Variable environ : gmap string string.

(** C9. Every endpoint other than the root greeting and token issuance
    depends on [get_current_user]: when the authentication of the presented
    credential fails, the request is answered with that failure, a 401
    exception carrying the bearer challenge, and the endpoint body does not
    run, so that collections and counters are as before; and such an
    endpoint answers successfully only to a request that authenticates as
    the configured account. *)
Theorem rejected_before_store now (req : request token) st :
  is_public req = false →
  (∀ e, authenticate environ now req = Raise e →
        route environ now req st = (Raise e, st) ∧
        ∃ detail,
          e = HTTPException HTTP_401_UNAUTHORIZED detail bearer_challenge)
  ∧ (∀ r, (route environ now req st).1 = Ok r →
          authenticate environ now req = Ok VALID_USERNAME).
Proof.
  intros Hprot. unfold authenticate.
  destruct req; try discriminate Hprot; simpl authorization_of; simpl route;
    match goal with
    | |- context [depends_current_user environ now ?a (λ _, ?h)] =>
        destruct (depends_cases environ now a h st)
          as [(e0 & He0 & Hroute)|(user & Huser & Hroute)]
    end;
    rewrite Hroute; clear Hroute.
  all: try (rewrite He0; split;
            [ intros e [= <-]; split; [done|];
              by eapply (authenticate_raises environ now
                           (GET_students authorization))
            | by intros r [=] ]).
  all: rewrite Huser; split; [by intros e [=]|]; intros _ _; f_equal;
    destruct authorization as [tok|]; simpl in Huser; [|done];
    by apply get_current_user_Ok in Huser.
Qed.

(** C6. Every id counter starts at 1. One request leaves a counter as it
    is or, when it is a create on that collection, advances it by one; a
    delete leaves every counter as it is. Over any sequence of requests a
    counter never decreases, and the ids handed out by the creates on a
    collection are the successive values of its counter, hence pairwise
    different whatever was deleted in between. *)
Theorem counters_only_advance_on_create :
  (∀ c, next_id_of c initial_store = 1)
  ∧ (∀ c now (req : request token) st,
       next_id_of c (route environ now req st).2 = next_id_of c st
       ∨ (is_create c req = true ∧
          next_id_of c (route environ now req st).2 = next_id_of c st + 1))
  ∧ (∀ c c' i st, next_id_of c (delete_in c' i st).2 = next_id_of c st)
  ∧ (∀ c (reqs : list (Z * request token)) st,
       next_id_of c st ≤ next_id_of c (serve environ reqs st).2 ∧
       ids_assigned c (serve environ reqs st).1
       = VInt <$> seqZ (next_id_of c st)
                       (next_id_of c (serve environ reqs st).2
                        - next_id_of c st) ∧
       NoDup (ids_assigned c (serve environ reqs st).1)).
Proof.
  split_and!.
  - by intros [].
  - apply route_counter.
  - intros c c' i st.
    assert (call_summary false c st (delete_in c' i st)) as [_ Hsum].
    { destruct c'; simpl; auto with summaries. }
    by destruct Hsum as [[[=] _]|[Hnext _]].
  - intros c reqs st. split_and!.
    + apply serve_counter_mono.
    + apply serve_ids_assigned.
    + rewrite serve_ids_assigned. apply NoDup_fmap_2.
      * by intros x y [=].
      * apply NoDup_seqZ.
Qed.

(** C8. On a collection without a record of that id, [Delete(id)] raises
    404 and leaves the store as it was. After a [Delete(id)] that
    succeeded, as long as no create on that collection is served, whatever
    else is, the next [Delete(id)] finds no record: it raises 404. *)
Theorem delete_missing_not_found c i st :
  keyed (db_of c st) →
  (¬ has_id (db_of c st) i →
   delete_in c i st = (not_found (not_found_detail c), st))
  ∧ (∀ r st1 (reqs : list (Z * request token)),
       delete_in c i st = (Ok r, st1) →
       Forall (λ nr, is_create c nr.2 = false) reqs →
       delete_in c i (serve environ reqs st1).2
       = (not_found (not_found_detail c), (serve environ reqs st1).2)).
Proof.
  intros Hk. split.
  - intros Hno.
    by destruct (delete_in_spec c i st Hk) as [[Hhas _]|[_ Hdel]].
  - intros r st1 reqs Hdel Hreqs.
    destruct (delete_in_spec c i st Hk)
      as [(_ & st' & Hdel' & Hdb)|[_ Hdel']];
      rewrite Hdel' in Hdel; [|done].
    injection Hdel as _ ->.
    assert (keyed (db_of c st1)) as Hk1.
    { rewrite Hdb. by apply others_keyed. }
    destruct (serve_no_new_id environ c reqs st1 Hreqs Hk1) as [Hk2 Hsub].
    destruct (delete_in_spec c i _ Hk2) as [[Hhas _]|[_ Hgone]]; [|done].
    apply Hsub in Hhas. rewrite Hdb in Hhas.
    by apply others_has_id in Hhas as [_ ?].
Qed.

End store_theorems.

Lemma rejected_before_store_witness :
  route (token := RefJose.token) ∅ 5000
        (POST_students (Some stale_token) alice) sample_store
  = (Raise credentials_exception, sample_store)
  ∧ route (token := RefJose.token) ∅ 5000 (DELETE_student None 1)
          sample_store
    = (Raise (HTTPException 401 "Not authenticated"
                [("WWW-Authenticate", "Bearer")]), sample_store).
Proof.
  split.
  - apply (proj1 (rejected_before_store (token := RefJose.token) ∅ 5000
                    (POST_students (Some stale_token) alice) sample_store
                    eq_refl) credentials_exception).
    reflexivity.
  - apply (proj1 (rejected_before_store (token := RefJose.token) ∅ 5000
                    (DELETE_student None 1) sample_store eq_refl)
             (HTTPException 401 "Not authenticated"
                [("WWW-Authenticate", "Bearer")])).
    reflexivity.
Defined.

Lemma delete_missing_not_found_witness :
  delete_in Students 5 sample_store
  = (not_found "Student not found", sample_store)
  ∧ delete_in Students 1
      (serve (token := RefJose.token) ∅
         [(5000, GET_students None); (5001, DELETE_student None 1)]
         (delete_in Students 1 sample_store).2).2
    = (not_found "Student not found",
       (serve (token := RefJose.token) ∅
          [(5000, GET_students None); (5001, DELETE_student None 1)]
          (delete_in Students 1 sample_store).2).2).
Proof.
  split.
  - apply (proj1 (delete_missing_not_found (token := RefJose.token) ∅
                    Students 5 sample_store
                    ltac:(repeat constructor; by eexists))).
    intros (r & Hr & Hid). apply list_elem_of_singleton in Hr as ->.
    discriminate Hid.
  - apply (proj2 (delete_missing_not_found (token := RefJose.token) ∅
                    Students 1 sample_store
                    ltac:(repeat constructor; by eexists)) PNone).
    + reflexivity.
    + repeat constructor.
Defined.

(** ** Enrollment creation *)

Lemma prefix_app (s t : string) : String.prefix s (s +:+ t) = true.
Proof.
  induction s as [|a s IH]; simpl; [by destruct t|].
  destruct (Ascii.ascii_dec a a); [done|congruence].
Qed.

Lemma occurs_prefix (needle hay : string) :
  String.prefix needle hay = true → occurs needle hay = true.
Proof.
  intros H. destruct hay as [|a hay].
  - by destruct needle.
  - change (occurs needle (String a hay))
      with (String.prefix needle (String a hay) || occurs needle hay).
    by rewrite H.
Qed.

Lemma occurs_app (needle pre post : string) :
  occurs needle (pre +:+ needle +:+ post) = true.
Proof.
  induction pre as [|a pre IH].
  - change (occurs needle (needle +:+ post) = true).
    apply occurs_prefix, prefix_app.
  - change (String.prefix needle (String a (pre +:+ needle +:+ post))
            || occurs needle (pre +:+ needle +:+ post) = true).
    rewrite IH. apply orb_true_r.
Qed.

Lemma student_missing_detail_mentions i :
  mentions (student_missing_detail i) i.
Proof. apply occurs_app. Qed.

Lemma course_missing_detail_mentions i :
  mentions (course_missing_detail i) i.
Proof. apply occurs_app. Qed.

(** The student check comes first. *)
Lemma add_enrollment_student_missing d st :
  keyed (students_db st) → keyed (courses_db st) →
  ¬ has_id (students_db st) (Enrollment.student_id d) →
  add_enrollment d st
  = (not_found (student_missing_detail (Enrollment.student_id d)), st).
Proof.
  intros Hks Hkc Hno. unfold add_enrollment, try_.
  destruct (any_id_eq_spec _ (Enrollment.student_id d) Hks)
    as [[Hhas _]|[_ ->]]; [done|].
  by destruct (any_id_eq_spec _ (Enrollment.course_id d) Hkc)
    as [[_ ->]|[_ ->]].
Qed.

Lemma add_enrollment_course_missing d st :
  keyed (students_db st) → keyed (courses_db st) →
  has_id (students_db st) (Enrollment.student_id d) →
  ¬ has_id (courses_db st) (Enrollment.course_id d) →
  add_enrollment d st
  = (not_found (course_missing_detail (Enrollment.course_id d)), st).
Proof.
  intros Hks Hkc Hhas Hno. unfold add_enrollment, try_.
  destruct (any_id_eq_spec _ (Enrollment.student_id d) Hks)
    as [[_ ->]|[Hno' _]]; [|done].
  by destruct (any_id_eq_spec _ (Enrollment.course_id d) Hkc)
    as [[Hhas' _]|[_ ->]].
Qed.

Lemma add_enrollment_accepted d st :
  keyed (students_db st) → keyed (courses_db st) →
  has_id (students_db st) (Enrollment.student_id d) →
  has_id (courses_db st) (Enrollment.course_id d) →
  add_enrollment d st
  = (Ok (PDict (<["id" := VInt (next_enrollment_id st)]> (Enrollment.dict d))),
     set_next_enrollment_id (next_enrollment_id st + 1)
       (set_enrollments_db
          (enrollments_db st
           ++ [<["id" := VInt (next_enrollment_id st)]> (Enrollment.dict d)])
          st)).
Proof.
  intros Hks Hkc Hs Hc. unfold add_enrollment, try_.
  destruct (any_id_eq_spec _ (Enrollment.student_id d) Hks)
    as [[_ ->]|[Hno _]]; [|done].
  by destruct (any_id_eq_spec _ (Enrollment.course_id d) Hkc)
    as [[_ ->]|[Hno _]].
Qed.

(** C3, as it stands, fails where both references are missing: the course
    with id 7 does not exist, yet the 404 names the student 99 and does not
    mention 7. *)
Lemma course_error_not_always_course_id :
  ¬ has_id (courses_db initial_store) 7 ∧
  add_enrollment (Enrollment.mk None 99 7) initial_store
  = (not_found "Student with ID 99 not found", initial_store) ∧
  ¬ mentions "Student with ID 99 not found" 7.
Proof.
  split_and!.
  - intros (r & Hr & _). by apply elem_of_nil in Hr.
  - reflexivity.
  - unfold mentions. by vm_compute.
Qed.

(** C3, amended. An enrollment whose [student_id] is not in the student
    collection is refused with a 404 that mentions that student id; one
    whose student exists and whose [course_id] is not in the course
    collection is refused with a 404 that mentions that course id; in both
    cases the store is as before. When both exist, exactly one record, the
    payload numbered by the counter, is appended to the enrollments and the
    counter advances. *)
Theorem enrollment_checks_references d st :
  keyed (students_db st) → keyed (courses_db st) →
  (¬ has_id (students_db st) (Enrollment.student_id d) →
   add_enrollment d st
   = (not_found (student_missing_detail (Enrollment.student_id d)), st) ∧
   mentions (student_missing_detail (Enrollment.student_id d))
            (Enrollment.student_id d))
  ∧ (has_id (students_db st) (Enrollment.student_id d) →
     ¬ has_id (courses_db st) (Enrollment.course_id d) →
     add_enrollment d st
     = (not_found (course_missing_detail (Enrollment.course_id d)), st) ∧
     mentions (course_missing_detail (Enrollment.course_id d))
              (Enrollment.course_id d))
  ∧ (has_id (students_db st) (Enrollment.student_id d) →
     has_id (courses_db st) (Enrollment.course_id d) →
     ∃ new st',
       add_enrollment d st = (Ok (PDict new), st') ∧
       new = <["id" := VInt (next_enrollment_id st)]> (Enrollment.dict d) ∧
       enrollments_db st' = (enrollments_db st ++ [new])%list ∧
       next_enrollment_id st' = next_enrollment_id st + 1 ∧
       students_db st' = students_db st ∧
       courses_db st' = courses_db st).
Proof.
  intros Hks Hkc. split_and!.
  - intros Hno. split; [by apply add_enrollment_student_missing|].
    apply student_missing_detail_mentions.
  - intros Hhas Hno. split; [by apply add_enrollment_course_missing|].
    apply course_missing_detail_mentions.
  - intros Hs Hc. do 2 eexists.
    split; [by apply add_enrollment_accepted|]. done.
Qed.

Lemma enrollment_checks_references_witness :
  add_enrollment (Enrollment.mk None 99 1) sample_store
  = (not_found "Student with ID 99 not found", sample_store)
  ∧ add_enrollment (Enrollment.mk None 1 7) sample_store
    = (not_found "Course with ID 7 not found", sample_store)
  ∧ ∃ new st',
      add_enrollment (Enrollment.mk (Some 5) 1 1) sample_store
      = (Ok (PDict new), st') ∧
      new = <["id" := VInt 1]>
              (Enrollment.dict (Enrollment.mk (Some 5) 1 1)) ∧
      enrollments_db st' = (enrollments_db sample_store ++ [new])%list ∧
      next_enrollment_id st' = 2 ∧
      students_db st' = students_db sample_store ∧
      courses_db st' = courses_db sample_store.
Proof.
  assert (keyed (students_db sample_store)) as Hks
    by (repeat constructor; by eexists).
  assert (keyed (courses_db sample_store)) as Hkc
    by (repeat constructor; by eexists).
  assert (has_id (students_db sample_store) 1) as Hs
    by (eexists; split; [left|]; reflexivity).
  assert (has_id (courses_db sample_store) 1) as Hc
    by (eexists; split; [left|]; reflexivity).
  split_and!.
  - apply (proj1 (enrollment_checks_references (Enrollment.mk None 99 1)
                    sample_store Hks Hkc)).
    intros (r & Hr & Hid). apply list_elem_of_singleton in Hr as ->.
    discriminate Hid.
  - apply (proj1 (proj2 (enrollment_checks_references
                           (Enrollment.mk None 1 7) sample_store Hks Hkc)));
      [exact Hs|].
    intros (r & Hr & Hid). apply list_elem_of_singleton in Hr as ->.
    discriminate Hid.
  - apply (proj2 (proj2 (enrollment_checks_references
                           (Enrollment.mk (Some 5) 1 1) sample_store
                           Hks Hkc))); [exact Hs|exact Hc].
Defined.

(** C10. When neither the student nor the course of an enrollment request
    exists, the 404 is the one about the student and mentions the student
    id: the student check takes precedence. *)
Theorem both_missing_reports_student d st :
  keyed (students_db st) → keyed (courses_db st) →
  ¬ has_id (students_db st) (Enrollment.student_id d) →
  ¬ has_id (courses_db st) (Enrollment.course_id d) →
  add_enrollment d st
  = (not_found (student_missing_detail (Enrollment.student_id d)), st) ∧
  mentions (student_missing_detail (Enrollment.student_id d))
           (Enrollment.student_id d).
Proof.
  intros Hks Hkc Hno _. split; [by apply add_enrollment_student_missing|].
  apply student_missing_detail_mentions.
Qed.

Lemma both_missing_reports_student_witness :
  add_enrollment (Enrollment.mk None 99 7) sample_store
  = (not_found "Student with ID 99 not found", sample_store) ∧
  mentions "Student with ID 99 not found" 99.
Proof.
  apply (both_missing_reports_student (Enrollment.mk None 99 7) sample_store).
  - repeat constructor. by eexists.
  - repeat constructor. by eexists.
  - intros (r & Hr & Hid). apply list_elem_of_singleton in Hr as ->.
    discriminate Hid.
  - intros (r & Hr & Hid). apply list_elem_of_singleton in Hr as ->.
    discriminate Hid.
Defined.

(** ** Runs of creates *)

Lemma run_cons {A} (h : handler A) rest st :
  run (h :: rest) st
  = ((h st).1 :: (run rest (h st).2).1, (run rest (h st).2).2).
Proof.
  simpl. destruct (h st) as [r st1]. simpl. by destruct (run rest st1).
Qed.

(** A run of creates that all go through numbers its records from the
    counter on: [create] is the handler, [counter] its counter, [dict_of]
    the dict of a payload, and [admissible] what lets a payload through. *)
Lemma run_creates {P} (create : P → handler pyobj) (counter : store → Z)
    (dict_of : P → pydict) (admissible : store → P → Prop) :
  (∀ p st, admissible st p →
     (create p st).1
     = Ok (PDict (<["id" := VInt (counter st)]> (dict_of p))) ∧
     counter (create p st).2 = counter st + 1 ∧
     ∀ q, admissible st q → admissible (create p st).2 q) →
  ∀ payloads st,
    Forall (admissible st) payloads →
    (run (create <$> payloads) st).1
    = imap (λ i p, Ok (PDict (<["id" := VInt (counter st + Z.of_nat i)]>
                                (dict_of p)))) payloads.
Proof.
  intros Hcreate payloads. induction payloads as [|p rest IH]; intros st Hall.
  - done.
  - apply Forall_cons in Hall as [Hp Hrest].
    destruct (Hcreate p st Hp) as (Hout & Hnext & Hkeep).
    rewrite fmap_cons, run_cons. simpl. rewrite Hout, Z.add_0_r. f_equal.
    rewrite IH.
    + apply imap_ext. intros i q _. simpl. rewrite Hnext.
      do 4 f_equal. lia.
    + eapply Forall_impl; [exact Hrest|]. apply Hkeep.
Qed.

(** The ids in such a list of outcomes. *)
Lemma assigned_ids_imap {P} (dict_of : P → pydict) (first : Z) payloads :
  assigned_id <$> imap (λ i p, Ok (PDict (<["id" := VInt (first + Z.of_nat i)]>
                                            (dict_of p)))) payloads
  = (λ n, Some (VInt n)) <$> seqZ first (Z.of_nat (length payloads)).
Proof.
  apply list_eq. intros i.
  rewrite !list_lookup_fmap, list_lookup_imap.
  destruct (payloads !! i) as [p|] eqn:Hp; simpl.
  - apply lookup_lt_Some in Hp.
    rewrite lookup_seqZ_lt by lia. simpl. by rewrite lookup_insert_eq.
  - apply lookup_ge_None in Hp. by rewrite lookup_seqZ_ge by lia.
Qed.

Lemma run_add_student payloads st :
  (run (add_student <$> payloads) st).1
  = imap (λ i p, Ok (PDict (<["id" := VInt (next_student_id st + Z.of_nat i)]>
                              (Student.dict p)))) payloads.
Proof.
  apply (run_creates add_student next_student_id Student.dict (λ _ _, True));
    [done|]. by apply Forall_true.
Qed.

Lemma run_add_course payloads st :
  (run (add_course <$> payloads) st).1
  = imap (λ i p, Ok (PDict (<["id" := VInt (next_course_id st + Z.of_nat i)]>
                              (Course.dict p)))) payloads.
Proof.
  apply (run_creates add_course next_course_id Course.dict (λ _ _, True));
    [done|]. by apply Forall_true.
Qed.

Lemma run_add_enrollment payloads st :
  keyed (students_db st) → keyed (courses_db st) →
  Forall (references_exist st) payloads →
  (run (add_enrollment <$> payloads) st).1
  = imap (λ i p,
            Ok (PDict (<["id" := VInt (next_enrollment_id st + Z.of_nat i)]>
                         (Enrollment.dict p)))) payloads.
Proof.
  intros Hks Hkc Hrefs.
  apply (run_creates add_enrollment next_enrollment_id Enrollment.dict
           (λ st d, keyed (students_db st) ∧ keyed (courses_db st) ∧
                    references_exist st d)).
  - intros p st0 (Hks0 & Hkc0 & Hs & Hc).
    by rewrite (add_enrollment_accepted p st0 Hks0 Hkc0 Hs Hc).
  - eapply Forall_impl; [exact Hrefs|]. by intros d Hd.
Qed.

(** C4. [N] creates in a row on the fresh student collection, or on the
    fresh course collection, all succeed and return the payloads numbered
    1, 2, ..., [N] in call order, whatever id a payload carried; the same
    holds for [N] enrollment creates whose references exist, on a store
    whose enrollment counter is still 1. *)
Theorem creates_number_from_one :
  (∀ payloads,
     (run (add_student <$> payloads) initial_store).1
     = imap (λ i p, Ok (PDict (<["id" := VInt (1 + Z.of_nat i)]>
                                 (Student.dict p)))) payloads ∧
     assigned_id <$> (run (add_student <$> payloads) initial_store).1
     = (λ n, Some (VInt n)) <$> seqZ 1 (Z.of_nat (length payloads)))
  ∧ (∀ payloads,
       (run (add_course <$> payloads) initial_store).1
       = imap (λ i p, Ok (PDict (<["id" := VInt (1 + Z.of_nat i)]>
                                   (Course.dict p)))) payloads ∧
       assigned_id <$> (run (add_course <$> payloads) initial_store).1
       = (λ n, Some (VInt n)) <$> seqZ 1 (Z.of_nat (length payloads)))
  ∧ (∀ payloads st,
       keyed (students_db st) → keyed (courses_db st) →
       next_enrollment_id st = 1 →
       Forall (references_exist st) payloads →
       (run (add_enrollment <$> payloads) st).1
       = imap (λ i p, Ok (PDict (<["id" := VInt (1 + Z.of_nat i)]>
                                   (Enrollment.dict p)))) payloads ∧
       assigned_id <$> (run (add_enrollment <$> payloads) st).1
       = (λ n, Some (VInt n)) <$> seqZ 1 (Z.of_nat (length payloads))).
Proof.
  split_and!.
  - intros payloads. rewrite run_add_student. split; [done|].
    apply assigned_ids_imap.
  - intros payloads. rewrite run_add_course. split; [done|].
    apply assigned_ids_imap.
  - intros payloads st Hks Hkc Hone Hrefs.
    rewrite (run_add_enrollment payloads st Hks Hkc Hrefs), Hone.
    split; [done|]. apply assigned_ids_imap.
Qed.

Lemma creates_number_from_one_witness :
  assigned_id <$> (run (add_student <$> [alice; alice_renumbered; alice])
                       initial_store).1
  = [Some (VInt 1); Some (VInt 2); Some (VInt 3)]
  ∧ assigned_id <$> (run (add_enrollment
                            <$> [Enrollment.mk None 1 1;
                                 Enrollment.mk (Some 77) 1 1])
                         sample_store).1
    = [Some (VInt 1); Some (VInt 2)].
Proof.
  split.
  - apply (proj2 (proj1 creates_number_from_one
                    [alice; alice_renumbered; alice])).
  - apply (proj2 (proj2 (proj2 creates_number_from_one)
                    [Enrollment.mk None 1 1; Enrollment.mk (Some 77) 1 1]
                    sample_store
                    ltac:(repeat constructor; by eexists)
                    ltac:(repeat constructor; by eexists)
                    eq_refl
                    ltac:(repeat constructor;
                          (eexists; split; [left|]; reflexivity)))).
Defined.

(** ** Reachable stores and two sessions *)

Section reachable.
Context {token : Type} `{!Jose token}.
Variable environ : gmap string string.

(** Whatever was served since start-up, every record carries an id, so the
    scans of the handlers do not raise. *)
Lemma reachable_keyed (reqs : list (Z * request token)) c :
  keyed (db_of c (serve environ reqs initial_store).2).
Proof.
  apply store_inv_keyed, serve_store_inv, initial_store_inv.
Qed.
End reachable.

(** Log in, be refused without a token, create a student, read it, update
    it, delete it, and miss it. *)
Example student_session :
  outcomes (serve (token := RefJose.token) ∅
     [(10000, POST_token (OAuth2PasswordRequestForm.mk "admin" "password123"));
      (10001, GET_students None);
      (10002, POST_students (Some fresh_token) alice);
      (10003, GET_student (Some fresh_token) 1);
      (10004, PUT_student (Some fresh_token) 1 alice_renumbered);
      (10005, DELETE_student (Some fresh_token) 1);
      (10006, GET_student (Some fresh_token) 1)]
     initial_store).1
  = [Ok (TokenBody (Token.mk fresh_token "bearer"));
     Raise (HTTPException 401 "Not authenticated"
              [("WWW-Authenticate", "Bearer")]);
     Ok (Body (PDict {["id" := VInt 1; "major" := VStr "CS";
                       "email" := VStr "a@b.com"]}));
     Ok (Body (PDict {["id" := VInt 1; "major" := VStr "CS";
                       "email" := VStr "a@b.com"]}));
     Ok (Body (PDict {["id" := VInt 1; "major" := VStr "Math";
                       "email" := VStr "a@b.com"]}));
     Ok (Body PNone);
     Raise (HTTPException 404 "Student not found" [])].
Proof. vm_compute. reflexivity. Qed.

(** Enroll the sample student in the sample course, then try a student
    that does not exist. *)
Example enrollment_session :
  outcomes (serve (token := RefJose.token) ∅
     [(10002, POST_enrollments (Some fresh_token) (Enrollment.mk None 1 1));
      (10003, POST_enrollments (Some fresh_token) (Enrollment.mk None 99 1))]
     sample_store).1
  = [Ok (Body (PDict {["id" := VInt 1; "student_id" := VInt 1;
                       "course_id" := VInt 1]}));
     Raise (HTTPException 404 "Student with ID 99 not found" [])].
Proof. vm_compute. reflexivity. Qed.

(** * Further properties of the handlers *)

(** ** Reading one record *)

Lemma find_by_id_cases db target :
  keyed db →
  (∃ idx r,
     find_by_id db target 0 = Ok (Some (idx, r)) ∧
     db !! idx = Some r ∧ r !! "id" = Some (VInt target) ∧
     ∀ j r', (j < idx)%nat → db !! j = Some r' →
             r' !! "id" ≠ Some (VInt target))
  ∨ (¬ has_id db target ∧ find_by_id db target 0 = Ok None).
Proof.
  intros Hk.
  destruct (find_by_id_total db target 0 Hk)
    as [[_ (idx & r & Hf)]|[Hno Hf]]; [left|by right].
  destruct (find_by_id_Some _ _ _ _ _ Hf) as (k & -> & Hk' & Hid & Hfirst).
  by exists k, r.
Qed.

Lemma get_in_cases c i st :
  keyed (db_of c st) →
  (∃ idx r,
     get_in c i st = (Ok (PDict r), st) ∧
     db_of c st !! idx = Some r ∧ r !! "id" = Some (VInt i) ∧
     ∀ j r', (j < idx)%nat → db_of c st !! j = Some r' →
             r' !! "id" ≠ Some (VInt i))
  ∨ (¬ has_id (db_of c st) i ∧
     get_in c i st = (not_found (not_found_detail c), st)).
Proof.
  intros Hk.
  destruct (find_by_id_cases _ i Hk)
    as [(idx & r & Hf & Hr & Hid & Hfirst)|[Hno Hf]].
  - left. exists idx, r. split; [|done].
    destruct c; simpl in *;
      unfold get_student, get_course, get_enrollment, try_; by rewrite Hf.
  - right. split; [done|].
    destruct c; simpl in *;
      unfold get_student, get_course, get_enrollment, try_; by rewrite Hf.
Qed.


(** X1. On a collection whose records all carry an id, [GetByID(id)]
    answers with the first record, in storage order, whose id is [id], and
    raises 404 with the collection's own detail when there is none; in both
    cases the store is left as it was. *)
Theorem get_returns_first_match c i st :
  keyed (db_of c st) →
  (∃ idx r,
     get_in c i st = (Ok (PDict r), st) ∧
     db_of c st !! idx = Some r ∧ r !! "id" = Some (VInt i) ∧
     ∀ j r', (j < idx)%nat → db_of c st !! j = Some r' →
             r' !! "id" ≠ Some (VInt i))
  ∨ (¬ has_id (db_of c st) i ∧
     get_in c i st = (not_found (not_found_detail c), st)).
Proof. apply get_in_cases. Qed.

Lemma get_returns_first_match_witness :
  (∃ idx r,
     get_in Students 1 sample_store = (Ok (PDict r), sample_store) ∧
     db_of Students sample_store !! idx = Some r ∧
     r !! "id" = Some (VInt 1) ∧
     ∀ j r', (j < idx)%nat → db_of Students sample_store !! j = Some r' →
             r' !! "id" ≠ Some (VInt 1))
  ∨ (¬ has_id (db_of Students sample_store) 1 ∧
     get_in Students 1 sample_store
     = (not_found (not_found_detail Students), sample_store)).
Proof.
  apply (get_returns_first_match Students 1 sample_store).
  repeat constructor. by eexists.
Defined.

(** ** Updating a record that is not there *)

(** X2. On a collection whose records all carry an id, [Update(id, _)] for
    an id that no record has raises 404 and leaves the store as it was, for
    students and for courses alike. *)
Theorem update_missing_not_found :
  (∀ st i d,
     keyed (students_db st) → ¬ has_id (students_db st) i →
     update_student i d st = (not_found "Student not found", st))
  ∧ (∀ st i d,
       keyed (courses_db st) → ¬ has_id (courses_db st) i →
       update_course i d st = (not_found "Course not found", st)).
Proof.
  split; intros st i d Hk Hno;
    destruct (find_by_id_total _ i 0 Hk) as [[Hhas _]|[_ Hf]]; try done;
    unfold update_student, update_course, try_; by rewrite Hf.
Qed.

Lemma update_missing_not_found_witness :
  update_student 7 alice sample_store
  = (not_found "Student not found", sample_store)
  ∧ update_course 7 algebra sample_store
    = (not_found "Course not found", sample_store).
Proof.
  split.
  - apply (proj1 update_missing_not_found sample_store 7 alice).
    + repeat constructor. by eexists.
    + intros (r & Hr & Hid). apply list_elem_of_singleton in Hr as ->.
      discriminate Hid.
  - apply (proj2 update_missing_not_found sample_store 7 algebra).
    + repeat constructor. by eexists.
    + intros (r & Hr & Hid). apply list_elem_of_singleton in Hr as ->.
      discriminate Hid.
Defined.

(** ** Create, update and delete, then read *)

Lemma ids_issued_fresh db next : ids_issued db next → ¬ has_id db next.
Proof.
  intros Hiss (r & Hr & Hid).
  apply (proj1 (Forall_forall _ _) Hiss) in Hr as (n & Hn & Hrange).
  rewrite Hid in Hn. injection Hn as <-. lia.
Qed.

(** A scan walks past records that do not have the id. *)
Lemma find_by_id_app db rest target base :
  keyed db → ¬ has_id db target →
  find_by_id (db ++ rest) target base
  = find_by_id rest target (base + length db).
Proof.
  intros Hk. revert base.
  induction Hk as [|x db [v Hv] _ IH]; intros base Hno; simpl.
  - by rewrite Nat.add_0_r.
  - unfold getitem. rewrite Hv. simpl.
    destruct (py_eq v (VInt target)) eqn:Heq.
    + apply py_eq_VInt in Heq as ->. destruct Hno. exists x.
      split; [left|done].
    + rewrite IH.
      * f_equal. lia.
      * intros (r & Hr & Hid). apply Hno. exists r. split; [by right|done].
Qed.

Lemma find_by_id_appended db next r :
  ids_issued db next → r !! "id" = Some (VInt next) →
  find_by_id (db ++ [r]) next 0 = Ok (Some (length db, r)).
Proof.
  intros Hiss Hid.
  rewrite find_by_id_app
    by eauto using ids_issued_keyed, ids_issued_fresh.
  simpl. unfold getitem. rewrite Hid. simpl. by rewrite Z.eqb_refl.
Qed.

(** X3. In a store whose ids are below their counters, reading back the id
    the counter is about to hand out, right after a create, returns the
    very record the create answered with, and leaves the store as the
    create left it: for students, for courses, and for enrollments whose
    references exist. *)
Theorem create_then_get st :
  store_inv st →
  (∀ d, get_student (next_student_id st) (add_student d st).2
        = add_student d st)
  ∧ (∀ d, get_course (next_course_id st) (add_course d st).2
          = add_course d st)
  ∧ (∀ d, references_exist st d →
          get_enrollment (next_enrollment_id st) (add_enrollment d st).2
          = add_enrollment d st ∧
          ∃ r, (add_enrollment d st).1 = Ok (PDict r)).
Proof.
  intros Hinv. split_and!.
  - intros d. destruct (Hinv Students) as [_ Hiss]. simpl in Hiss.
    unfold add_student, get_student, try_. simpl.
    by rewrite find_by_id_appended by (done || apply lookup_insert_eq).
  - intros d. destruct (Hinv Courses) as [_ Hiss]. simpl in Hiss.
    unfold add_course, get_course, try_. simpl.
    by rewrite find_by_id_appended by (done || apply lookup_insert_eq).
  - intros d [Hs Hc]. destruct (Hinv Enrollments) as [_ Hiss].
    simpl in Hiss.
    rewrite (add_enrollment_accepted d st
               (store_inv_keyed st Students Hinv)
               (store_inv_keyed st Courses Hinv) Hs Hc).
    split; [|by eexists].
    unfold get_enrollment, try_. simpl.
    by rewrite find_by_id_appended by (done || apply lookup_insert_eq).
Qed.

Lemma create_then_get_witness :
  get_student 2 (add_student alice sample_store).2
  = add_student alice sample_store
  ∧ get_enrollment 1
      (add_enrollment (Enrollment.mk None 1 1) sample_store).2
    = add_enrollment (Enrollment.mk None 1 1) sample_store.
Proof.
  assert (store_inv sample_store) as Hinv.
  { intros c. destruct c; (split; [simpl; lia|]); repeat constructor;
      try (eexists; split; [reflexivity|simpl; lia]). }
  split.
  - apply (proj1 (create_then_get sample_store Hinv) alice).
  - apply (proj2 (proj2 (create_then_get sample_store Hinv))
             (Enrollment.mk None 1 1)).
    split; (eexists; split; [left|]; reflexivity).
Defined.

(** A scan finds a rewritten record where it found the old one, as long as
    the id was kept. *)
Lemma find_by_id_rewritten db target base idx old new :
  find_by_id db target base = Ok (Some (idx, old)) →
  new !! "id" = old !! "id" →
  find_by_id (<[(idx - base)%nat := new]> db) target base
  = Ok (Some (idx, new)).
Proof.
  revert base. induction db as [|x rest IH]; intros base; simpl; [done|].
  unfold getitem at 1.
  destruct (x !! "id") as [v|] eqn:Hv; simpl; [|done].
  destruct (py_eq v (VInt target)) eqn:Heq.
  - intros [= <- <-] Hid. rewrite Nat.sub_diag. simpl.
    unfold getitem. rewrite Hid, Hv. simpl. by rewrite Heq.
  - intros Hf Hid.
    destruct (find_by_id_Some _ _ _ _ _ Hf) as (k & Hidx & _).
    replace (idx - base)%nat with (S (idx - S base)) by lia. simpl.
    unfold getitem. rewrite Hv. simpl. rewrite Heq. by apply IH.
Qed.

Lemma dict_update_twice (d u : pydict) :
  dict_update (dict_update d u) u = dict_update d u.
Proof.
  unfold dict_update. by rewrite (assoc_L (∪)), (idemp_L (∪)).
Qed.

Ltac solve_update_again :=
  unfold try_;
  match goal with
  | |- context [find_by_id ?db ?i 0] =>
      let Hf := fresh "Hf" in
      destruct (find_by_id db i 0) as [[[idx old]|]|] eqn:Hf; simpl;
      [ | by rewrite Hf | by rewrite Hf ]
  end;
  match goal with
  | Hf : find_by_id _ _ _ = Ok (Some (?idx, ?old)) |- _ =>
      rewrite guarded_del_id;
      match goal with
      | |- context [dict_update old ?u] =>
          rewrite <- (Nat.sub_0_r idx) at 1;
          rewrite (find_by_id_rewritten _ _ _ _ _ (dict_update old u) Hf)
            by (by rewrite merged_lookup,
                  decide_False by (intros [? ?]; congruence))
      end
  end;
  simpl; by rewrite dict_update_twice, list_insert_insert_eq.

(** X4. [Update] is idempotent: sending the same update a second time
    gives the same answer and leaves the store as the first one left it,
    for students and for courses, also when the answer is an error. *)
Theorem update_idempotent :
  (∀ st i d,
     update_student i d (update_student i d st).2 = update_student i d st)
  ∧ (∀ st i d,
       update_course i d (update_course i d st).2 = update_course i d st).
Proof.
  split; intros st i d.
  - unfold update_student at 2 3, Student.dict_exclude_unset.
    unfold update_student, Student.dict_exclude_unset.
    solve_update_again.
  - unfold update_course at 2 3, Course.dict_exclude_unset.
    unfold update_course, Course.dict_exclude_unset.
    solve_update_again.
Qed.

Lemma update_student_Ok st i d new st' :
  update_student i d st = (Ok (PDict new), st') →
  ∃ idx old,
    find_by_id (students_db st) i 0 = Ok (Some (idx, old)) ∧
    new !! "id" = old !! "id" ∧
    students_db st' = <[idx := new]> (students_db st).
Proof.
  unfold update_student, Student.dict_exclude_unset, try_.
  destruct (find_by_id (students_db st) i 0) as [[[idx old]|]|] eqn:Hf;
    [|done|done].
  rewrite guarded_del_id.
  assert (dict_update old
            (delete "id"
               (filter (λ kv, kv.1 ∈ Student.fields_set d) (Student.dict d)))
          !! "id" = old !! "id") as Hid
    by (by rewrite merged_lookup,
          decide_False by (intros [? ?]; congruence)).
  revert Hid.
  generalize (dict_update old
                (delete "id"
                   (filter (λ kv, kv.1 ∈ Student.fields_set d)
                           (Student.dict d)))).
  intros new0 Hid [= <- <-]. by exists idx, old.
Qed.

Lemma update_course_Ok st i d new st' :
  update_course i d st = (Ok (PDict new), st') →
  ∃ idx old,
    find_by_id (courses_db st) i 0 = Ok (Some (idx, old)) ∧
    new !! "id" = old !! "id" ∧
    courses_db st' = <[idx := new]> (courses_db st).
Proof.
  unfold update_course, Course.dict_exclude_unset, try_.
  destruct (find_by_id (courses_db st) i 0) as [[[idx old]|]|] eqn:Hf;
    [|done|done].
  rewrite guarded_del_id.
  assert (dict_update old
            (delete "id"
               (filter (λ kv, kv.1 ∈ Course.fields_set d) (Course.dict d)))
          !! "id" = old !! "id") as Hid
    by (by rewrite merged_lookup,
          decide_False by (intros [? ?]; congruence)).
  revert Hid.
  generalize (dict_update old
                (delete "id"
                   (filter (λ kv, kv.1 ∈ Course.fields_set d)
                           (Course.dict d)))).
  intros new0 Hid [= <- <-]. by exists idx, old.
Qed.

(** X5. After an [Update(id, _)] that succeeded, [GetByID(id)] returns the
    record the update answered with, for students and for courses. *)
Theorem update_then_get :
  (∀ st i d new st',
     update_student i d st = (Ok (PDict new), st') →
     get_student i st' = (Ok (PDict new), st'))
  ∧ (∀ st i d new st',
       update_course i d st = (Ok (PDict new), st') →
       get_course i st' = (Ok (PDict new), st')).
Proof.
  split; intros st i d new st' Hup.
  - apply update_student_Ok in Hup as (idx & old & Hf & Hid & Hdb).
    unfold get_student, try_. rewrite Hdb.
    rewrite <- (Nat.sub_0_r idx) at 1.
    by rewrite (find_by_id_rewritten _ _ _ _ _ _ Hf Hid).
  - apply update_course_Ok in Hup as (idx & old & Hf & Hid & Hdb).
    unfold get_course, try_. rewrite Hdb.
    rewrite <- (Nat.sub_0_r idx) at 1.
    by rewrite (find_by_id_rewritten _ _ _ _ _ _ Hf Hid).
Qed.

Lemma update_then_get_witness :
  get_student 1 (update_student 1 alice_renumbered sample_store).2
  = update_student 1 alice_renumbered sample_store.
Proof.
  rewrite (surjective_pairing
             (update_student 1 alice_renumbered sample_store)) at 2.
  apply (proj1 update_then_get sample_store 1 alice_renumbered).
  reflexivity.
Defined.

(** Dropping the records of one id does not change what a scan for
    another id finds. *)
Lemma find_by_id_others db i j base base' :
  keyed db → j ≠ i →
  (∃ idx idx' r,
     find_by_id db j base = Ok (Some (idx, r)) ∧
     find_by_id (others i db) j base' = Ok (Some (idx', r)))
  ∨ (find_by_id db j base = Ok None ∧
     find_by_id (others i db) j base' = Ok None).
Proof.
  intros Hk Hne. revert base base'.
  induction Hk as [|x db [v Hv] _ IH]; intros base base'; [by right|].
  unfold others in *. rewrite filter_cons. simpl.
  unfold getitem. rewrite Hv. simpl.
  destruct (py_eq v (VInt j)) eqn:Hj.
  - apply py_eq_VInt in Hj as ->.
    rewrite decide_True by congruence. simpl.
    unfold getitem. rewrite Hv. simpl. rewrite Z.eqb_refl.
    left. by do 3 eexists.
  - case_decide as Hi; simpl.
    + unfold getitem. rewrite Hv. simpl. rewrite Hj. apply IH.
    + apply IH.
Qed.

(** X6. After a [Delete(id)] that succeeded on a collection whose records
    all carry an id, [GetByID(id)] raises 404, while [GetByID] of every
    other id answers as it did before the delete. *)
Theorem delete_then_get c i st r st' :
  keyed (db_of c st) →
  delete_in c i st = (Ok r, st') →
  get_in c i st' = (not_found (not_found_detail c), st')
  ∧ ∀ j, j ≠ i → (get_in c j st').1 = (get_in c j st).1.
Proof.
  intros Hk Hdel.
  destruct (delete_in_spec c i st Hk)
    as [(_ & st1 & Hdel' & Hdb)|[_ Hdel']];
    rewrite Hdel' in Hdel; [|done].
  injection Hdel as _ ->.
  assert (keyed (db_of c st')) as Hk1.
  { rewrite Hdb. by apply others_keyed. }
  split.
  - destruct (get_in_cases c i st' Hk1)
      as [(idx & x & _ & Hx & Hid & _)|[_ Hget]]; [|done].
    assert (has_id (others i (db_of c st)) i) as Hhas.
    { rewrite <- Hdb. exists x. split; [|done].
      by eapply list_elem_of_lookup_2. }
    by apply others_has_id in Hhas as [_ ?].
  - intros j Hne.
    destruct (find_by_id_others (db_of c st) i j 0 0 Hk Hne)
      as [(idx & idx' & x & Hf & Hf')|[Hf Hf']];
      rewrite <- Hdb in Hf';
      destruct c; simpl in *;
      unfold get_student, get_course, get_enrollment, try_;
      by rewrite Hf, Hf'.
Qed.

Lemma delete_then_get_witness :
  get_in Students 1 (delete_in Students 1 sample_store).2
  = (not_found "Student not found", (delete_in Students 1 sample_store).2)
  ∧ ∀ j, j ≠ 1 →
      (get_in Students j (delete_in Students 1 sample_store).2).1
      = (get_in Students j sample_store).1.
Proof.
  apply (delete_then_get Students 1 sample_store PNone).
  - repeat constructor. by eexists.
  - reflexivity.
Defined.

(** ** What a delete leaves alone *)

Lemma delete_in_frame c c' i st :
  c ≠ c' → db_of c' (delete_in c i st).2 = db_of c' st.
Proof.
  intros Hne.
  destruct c, c'; try done; simpl;
    unfold delete_student, delete_course, delete_enrollment, try_;
    match goal with
    | |- context [without_id ?db i] => destruct (without_id db i); [|done]
    end; simpl; by case_match.
Qed.

(** X7. A delete on one collection does not cascade: the other two
    collections hold the same records afterwards, and [GetByID] on them
    answers as before, so that an enrollment outlives the student or the
    course it refers to. *)
Theorem delete_does_not_cascade c c' i st :
  c ≠ c' →
  db_of c' (delete_in c i st).2 = db_of c' st
  ∧ ∀ j, (get_in c' j (delete_in c i st).2).1 = (get_in c' j st).1.
Proof.
  intros Hne. pose proof (delete_in_frame c c' i st Hne) as Hdb.
  split; [done|]. intros j.
  destruct c'; simpl in *;
    unfold get_student, get_course, get_enrollment, try_; rewrite Hdb;
    match goal with
    | |- context [find_by_id ?db j 0] =>
        by destruct (find_by_id db j 0) as [[[? ?]|]|]
    end.
Qed.

Lemma delete_does_not_cascade_witness :
  db_of Enrollments
    (delete_in Students 1
       (add_enrollment (Enrollment.mk None 1 1) sample_store).2).2
  = db_of Enrollments (add_enrollment (Enrollment.mk None 1 1) sample_store).2
  ∧ ∀ j,
      (get_in Enrollments j
         (delete_in Students 1
            (add_enrollment (Enrollment.mk None 1 1) sample_store).2).2).1
      = (get_in Enrollments j
           (add_enrollment (Enrollment.mk None 1 1) sample_store).2).1.
Proof.
  apply (delete_does_not_cascade Students Enrollments 1
           (add_enrollment (Enrollment.mk None 1 1) sample_store).2).
  discriminate.
Defined.

(** X8. Once a referenced record is deleted, new enrollments naming it are
    refused: after a successful delete of student [i], an enrollment for
    student [i] raises the 404 about the student; after a successful delete
    of course [i], an enrollment for an existing student and course [i]
    raises the 404 about the course. *)
Theorem deleted_reference_refused st i r st' :
  keyed (students_db st) → keyed (courses_db st) →
  (delete_student i st = (Ok r, st') →
   ∀ d, Enrollment.student_id d = i →
        add_enrollment d st' = (not_found (student_missing_detail i), st'))
  ∧ (delete_course i st = (Ok r, st') →
     ∀ d, Enrollment.course_id d = i →
          has_id (students_db st) (Enrollment.student_id d) →
          add_enrollment d st' = (not_found (course_missing_detail i), st')).
Proof.
  intros Hks Hkc. split; intros Hdel d <-.
  - destruct (delete_in_spec Students (Enrollment.student_id d) st Hks)
      as [(_ & st1 & Hdel' & Hdb)|[_ Hdel']]; simpl in *;
      rewrite Hdel' in Hdel; [|done].
    injection Hdel as _ ->.
    pose proof (delete_in_frame Students Courses
                  (Enrollment.student_id d) st ltac:(done)) as Hfr.
    simpl in Hfr. rewrite Hdel' in Hfr. simpl in Hfr.
    apply add_enrollment_student_missing.
    + rewrite Hdb. by apply others_keyed.
    + by rewrite Hfr.
    + rewrite Hdb. by intros [_ ?]%others_has_id.
  - intros Hs.
    destruct (delete_in_spec Courses (Enrollment.course_id d) st Hkc)
      as [(_ & st1 & Hdel' & Hdb)|[_ Hdel']]; simpl in *;
      rewrite Hdel' in Hdel; [|done].
    injection Hdel as _ ->.
    pose proof (delete_in_frame Courses Students
                  (Enrollment.course_id d) st ltac:(done)) as Hfr.
    simpl in Hfr. rewrite Hdel' in Hfr. simpl in Hfr.
    apply add_enrollment_course_missing.
    + by rewrite Hfr.
    + rewrite Hdb. by apply others_keyed.
    + by rewrite Hfr.
    + rewrite Hdb. by intros [_ ?]%others_has_id.
Qed.

Lemma deleted_reference_refused_witness :
  add_enrollment (Enrollment.mk None 1 1) (delete_student 1 sample_store).2
  = (not_found "Student with ID 1 not found",
     (delete_student 1 sample_store).2).
Proof.
  apply (proj1 (deleted_reference_refused sample_store 1 PNone
                  (delete_student 1 sample_store).2
                  ltac:(repeat constructor; by eexists)
                  ltac:(repeat constructor; by eexists))
           eq_refl (Enrollment.mk None 1 1) eq_refl).
Defined.

(** ** Errors and reads leave the store alone *)

Lemma set_students_db_same st : set_students_db (students_db st) st = st.
Proof. by destruct st. Qed.
Lemma set_courses_db_same st : set_courses_db (courses_db st) st = st.
Proof. by destruct st. Qed.
Lemma set_enrollments_db_same st :
  set_enrollments_db (enrollments_db st) st = st.
Proof. by destruct st. Qed.

(** An endpoint body that raises, or that only reads, hands the store back
    as it got it. *)
Lemma endpoint_quiet {token} (req : request token) h st :
  endpoint_of req = Some h →
  (∀ e, (h st).1 = Raise e → (h st).2 = st) ∧
  (is_mutating req = false → (h st).2 = st).
Proof.
  destruct req; intros [= <-]; simpl;
    (split; [intros e|intros Hread; try discriminate Hread]);
    unfold get_students, get_courses, get_enrollments, get_student,
      get_course, get_enrollment, add_student, add_course, add_enrollment,
      update_student, update_course, delete_student, delete_course,
      delete_enrollment, try_;
    try done;
    repeat match goal with
      | |- context [find_by_id ?db ?i ?b] =>
          destruct (find_by_id db i b) as [[[? ?]|]|]
      | |- context [any_id_eq ?db ?i] =>
          destruct (any_id_eq db i) as [[]|]
      end; simpl; try done;
    match goal with
    | |- context [without_id ?db ?i] =>
        let Hw := fresh "Hw" in
        destruct (without_id db i) as [kept|] eqn:Hw; [|done];
        apply without_id_others in Hw as ->; simpl;
        destruct (Nat.eqb_spec (length (others i db)) (length db))
          as [Hlen|Hlen]; [|done];
        intros _; rewrite (others_same_length _ _ Hlen);
        first [ apply set_students_db_same | apply set_courses_db_same
              | apply set_enrollments_db_same ]
    end.
Qed.

Section quiet_requests.
Context {token : Type} `{!Jose token}.
Variable environ : gmap string string.

Lemma route_protected now (req : request token) st :
  is_public req = false →
  ∃ h, endpoint_of req = Some h ∧
       ((∃ e, authenticate environ now req = Raise e ∧
              route environ now req st = (Raise e, st))
        ∨ (authenticate environ now req = Ok VALID_USERNAME ∧
           route environ now req st = as_body h st)).
Proof.
  intros Hprot. unfold authenticate.
  destruct req; try discriminate Hprot; simpl authorization_of;
    simpl route; eexists; (split; [reflexivity|]);
    match goal with
    | |- context [depends_current_user environ now ?a (λ _, ?h)] =>
        destruct (depends_cases environ now a h st)
          as [(e0 & He0 & Hroute)|(user & Huser & Hroute)]
    end;
    rewrite Hroute; clear Hroute.
  all: try (left; exists e0; by rewrite He0).
  all: right; split; [|done]; rewrite Huser; f_equal;
    destruct authorization as [tok|]; simpl in Huser; [|done];
    by apply get_current_user_Ok in Huser.
Qed.

(** X9. Whatever the request, the store is changed only by a POST, PUT or
    DELETE that is answered successfully: a request that is answered with
    an exception leaves collections and counters as they were, and so does
    every GET, the root greeting and token issuance. *)
Theorem store_changes_only_on_success now (req : request token) st :
  (∀ e, (route environ now req st).1 = Raise e →
        (route environ now req st).2 = st)
  ∧ (is_mutating req = false → (route environ now req st).2 = st).
Proof.
  destruct (is_public req) eqn:Hpub.
  - destruct req; try discriminate Hpub; simpl.
    + by split.
    + unfold login_for_access_token.
      by destruct (negb _ || negb _).
  - destruct (route_protected now req st Hpub)
      as (h & Hh & [(e0 & _ & ->)|[_ ->]]); [by split|].
    destruct (endpoint_quiet req h st Hh) as [Hraise Hread].
    unfold as_body. destruct (h st) as [[o|e0] st1]; simpl in *.
    + split; [done|]. exact Hread.
    + split; [|exact Hread]. intros e _. by eapply Hraise.
Qed.

End quiet_requests.

Lemma store_changes_only_on_success_witness :
  (route (token := RefJose.token) ∅ 10000
     (DELETE_student (Some fresh_token) 7) sample_store).2 = sample_store
  ∧ (route (token := RefJose.token) ∅ 10000
       (GET_student (Some fresh_token) 1) sample_store).2 = sample_store.
Proof.
  split.
  - apply (proj1 (store_changes_only_on_success (token := RefJose.token)
                    ∅ 10000 (DELETE_student (Some fresh_token) 7)
                    sample_store)
             (HTTPException 404 "Student not found" [])).
    reflexivity.
  - apply (proj2 (store_changes_only_on_success (token := RefJose.token)
                    ∅ 10000 (GET_student (Some fresh_token) 1)
                    sample_store)).
    reflexivity.
Defined.


(** ** Tokens made by [create_access_token] *)

Section created_tokens.
Context {token : Type} `{!Jose token}.
Variable environ : gmap string string.

(** Within its lifetime, a created token decodes to the data it was made
    from, with [exp] set to the expiry. *)
Lemma created_token_decodes now now' data expires_delta :
  dom data ⊆ {["sub"; "exp"]} → sub_is_str data →
  now' ≤ now + lifetime expires_delta →
  jwt_decode (create_access_token environ now data expires_delta)
             (SECRET_KEY environ) [ALGORITHM] now'
  = Ok (dict_update data {["exp" := VInt (now + lifetime expires_delta)]}).
Proof.
  intros Hdom Hsub Hle. unfold create_access_token.
  assert (match expires_delta with
          | Some delta =>
              if negb (Z.eqb delta 0) then now + delta
              else now + timedelta_minutes ACCESS_TOKEN_EXPIRE_MINUTES
          | None => now + timedelta_minutes ACCESS_TOKEN_EXPIRE_MINUTES
          end = now + lifetime expires_delta) as ->.
  { unfold lifetime. destruct expires_delta as [delta|]; [|done].
    by destruct (Z.eqb delta 0). }
  apply jwt_decode_encode.
  - by left.
  - unfold dict_update. rewrite dom_union_L, dom_singleton_L.
    apply union_least; [apply union_subseteq_r|done].
  - intros v. unfold dict_update.
    rewrite lookup_union_r by done. apply Hsub.
  - exists (now + lifetime expires_delta). split; [|done].
    unfold dict_update. by rewrite lookup_union_l', lookup_singleton_eq.
Qed.

(** X10. A token made by [create_access_token] from data with at most a
    string [sub] and an [exp] is valid for the given [expires_delta], or for
    60 minutes when that is absent or zero, whatever [exp] the data
    carried: up to that expiry [get_current_user] returns the account name
    when [sub] is the configured account, and raises the 401 credentials
    exception when [sub] is anything else or missing. *)
Theorem created_token_authenticates_by_subject now now' data expires_delta :
  dom data ⊆ {["sub"; "exp"]} → sub_is_str data →
  now' ≤ now + lifetime expires_delta →
  (data !! "sub" = Some (VStr VALID_USERNAME) →
   get_current_user environ now'
     (create_access_token environ now data expires_delta)
   = Ok VALID_USERNAME)
  ∧ (data !! "sub" ≠ Some (VStr VALID_USERNAME) →
     get_current_user environ now'
       (create_access_token environ now data expires_delta)
     = Raise credentials_exception).
Proof.
  intros Hdom Hsub Hle. unfold get_current_user.
  rewrite (created_token_decodes now now' data expires_delta Hdom Hsub Hle).
  simpl. unfold dict_update. rewrite lookup_union_r by done.
  split.
  - by intros ->.
  - intros Hother. destruct (data !! "sub") as [v|] eqn:Hv; [|done].
    destruct (Hsub v Hv) as [s ->]. simpl.
    destruct (String.eqb_spec s VALID_USERNAME) as [->|]; by simpl.
Qed.

(** X11. [get_current_user] returns a username exactly when the token
    decodes, under the server key and at the validation time, to claims
    whose [sub] is the configured account name, and that name is what it
    returns; in every other case it raises the 401 credentials
    exception. *)
Theorem get_current_user_iff now tok :
  (∀ user,
     get_current_user environ now tok = Ok user
     ↔ user = VALID_USERNAME ∧
       ∃ payload,
         jwt_decode tok (SECRET_KEY environ) [ALGORITHM] now = Ok payload ∧
         payload !! "sub" = Some (VStr VALID_USERNAME))
  ∧ (get_current_user environ now tok = Ok VALID_USERNAME
     ∨ get_current_user environ now tok = Raise credentials_exception).
Proof.
  split.
  - intros user. unfold get_current_user.
    destruct (jwt_decode tok (SECRET_KEY environ) [ALGORITHM] now)
      as [payload|err] eqn:Hdec; simpl.
    + apply jwt_decode_sound in Hdec as (_ & _ & Hsub).
      destruct (payload !! "sub") as [v|] eqn:Hv; simpl.
      * destruct (Hsub v Hv) as [s ->]. simpl.
        destruct (String.eqb_spec s VALID_USERNAME) as [->|Hne]; simpl.
        -- split; [intros [= <-]; split; [done|by eexists]|].
           by intros [-> _].
        -- split; [done|]. intros [_ (p & [= <-] & Hp)].
           rewrite Hv in Hp. congruence.
      * split; [done|]. intros [_ (p & [= <-] & Hp)]. congruence.
    + apply jwt_decode_raises in Hdec as [msg ->]. simpl.
      split; [done|]. by intros [_ (p & [=] & _)].
  - destruct (get_current_user environ now tok) as [user|e] eqn:Hget.
    + left. by apply get_current_user_Ok in Hget as ->.
    + right. by apply get_current_user_raises in Hget as ->.
Qed.

End created_tokens.

Lemma created_token_authenticates_by_subject_witness :
  get_current_user (token := RefJose.token) ∅ 1900
    (create_access_token ∅ 1000
       ({["sub" := VStr "admin"; "exp" := VInt 5]} : pydict) (Some 900))
  = Ok "admin"
  ∧ get_current_user (token := RefJose.token) ∅ 1900
      (create_access_token ∅ 1000 ({["sub" := VStr "root"]} : pydict)
         (Some 0))
    = Raise credentials_exception.
Proof.
  split.
  - apply (proj1 (created_token_authenticates_by_subject
                    (token := RefJose.token) ∅ 1000 1900
                    {["sub" := VStr "admin"; "exp" := VInt 5]} (Some 900)
                    ltac:(rewrite dom_insert_L, dom_singleton_L; done)
                    ltac:(intros v Hv; vm_compute in Hv;
                          injection Hv as <-; by eexists)
                    ltac:(simpl; lia))).
    reflexivity.
  - apply (proj2 (created_token_authenticates_by_subject
                    (token := RefJose.token) ∅ 1000 1900
                    {["sub" := VStr "root"]} (Some 0)
                    ltac:(rewrite dom_singleton_L; apply union_subseteq_l)
                    ltac:(intros v Hv; vm_compute in Hv;
                          injection Hv as <-; by eexists)
                    ltac:(simpl; lia))).
    discriminate.
Defined.


(** ** Updates with a validated payload *)

(** X13. A payload that passed request validation carries every required
    field, so a successful [Update] overwrites all of them: the stored
    student gets the payload's major and email, the stored course the
    payload's title, code and credits, and in both the id stays the one
    that was asked for. *)
Theorem validated_update_replaces_fields :
  (∀ st i d,
     Student.validated d →
     keyed (students_db st) → has_id (students_db st) i →
     ∃ new st',
       update_student i d st = (Ok (PDict new), st') ∧
       new !! "id" = Some (VInt i) ∧
       new !! "major" = Some (VStr (Student.major d)) ∧
       new !! "email" = Some (VStr (Student.email d)))
  ∧ (∀ st i d,
       Course.validated d →
       keyed (courses_db st) → has_id (courses_db st) i →
       ∃ new st',
         update_course i d st = (Ok (PDict new), st') ∧
         new !! "id" = Some (VInt i) ∧
         new !! "title" = Some (VStr (Course.title d)) ∧
         new !! "code" = Some (VStr (Course.code d)) ∧
         new !! "credits" = Some (VInt (Course.credits d))).
Proof.
  split; intros st i d [Hreq _] Hk Hhas.
  - destruct (update_student_merges st i d Hk Hhas)
      as (idx & old & new & _ & Hid & Hup & Hsame & _ & Hset).
    exists new. eexists. split; [exact Hup|]. split_and!.
    + by rewrite Hsame.
    + apply Hset; [apply Hreq; set_unfold; tauto|done|done].
    + apply Hset; [apply Hreq; set_unfold; tauto|done|done].
  - destruct (update_course_merges st i d Hk Hhas)
      as (idx & old & new & _ & Hid & Hup & Hsame & _ & Hset).
    exists new. eexists. split; [exact Hup|]. split_and!.
    + by rewrite Hsame.
    + apply Hset; [apply Hreq; set_unfold; tauto|done|done].
    + apply Hset; [apply Hreq; set_unfold; tauto|done|done].
    + apply Hset; [apply Hreq; set_unfold; tauto|done|done].
Qed.

Lemma validated_update_replaces_fields_witness :
  ∃ new st',
    update_student 1 alice_renumbered sample_store = (Ok (PDict new), st') ∧
    new !! "id" = Some (VInt 1) ∧
    new !! "major" = Some (VStr "Math") ∧
    new !! "email" = Some (VStr "a@b.com").
Proof.
  apply (proj1 validated_update_replaces_fields sample_store 1
           alice_renumbered).
  - split; intros k; set_unfold; tauto.
  - repeat constructor. by eexists.
  - eexists. split; [left|]. reflexivity.
Defined.

(** ** Ids in the stores the server can reach *)

Lemma int_ids_app db1 db2 :
  int_ids (db1 ++ db2) = (int_ids db1 ++ int_ids db2)%list.
Proof. apply omap_app. Qed.

Lemma int_ids_rewritten db idx old new :
  db !! idx = Some old → new !! "id" = old !! "id" →
  int_ids (<[idx := new]> db) = int_ids db.
Proof.
  revert idx. induction db as [|x rest IH]; intros [|idx]; simpl; try done.
  - intros [= ->] Hid. unfold int_ids. simpl. by rewrite Hid.
  - intros Hold Hid. unfold int_ids in *. simpl. by rewrite (IH idx).
Qed.

Lemma int_ids_others i db :
  int_ids (others i db) = filter (λ n, n ≠ i) (int_ids db).
Proof.
  unfold others, int_ids. induction db as [|x rest IH]; [done|].
  rewrite filter_cons. simpl.
  destruct (x !! "id") as [[|n|s]|] eqn:Hx.
  - rewrite decide_True by done. simpl. rewrite Hx. exact IH.
  - rewrite filter_cons. destruct (decide (n = i)) as [->|Hne].
    + rewrite decide_False by (by intros []).
      rewrite decide_False by (by intros []). exact IH.
    + rewrite decide_True by congruence.
      rewrite decide_True by done. simpl. rewrite Hx. f_equal. exact IH.
  - rewrite decide_True by done. simpl. rewrite Hx. exact IH.
  - rewrite decide_True by done. simpl. rewrite Hx. exact IH.
Qed.

Lemma ids_issued_int_ids db next :
  ids_issued db next →
  Forall (λ n, 1 ≤ n < next) (int_ids db) ∧
  (λ r : pydict, r !! "id") <$> db = (λ n, Some (VInt n)) <$> int_ids db.
Proof.
  unfold int_ids. induction 1 as [|x rest (n & Hn & Hrange) _ [IH1 IH2]];
    [done|].
  simpl. rewrite Hn. simpl. split; [by constructor|]. f_equal. exact IH2.
Qed.

Lemma StronglySorted_filter {A} (R : relation A) (P : A → Prop)
    `{!∀ x, Decision (P x)} l :
  StronglySorted R l → StronglySorted R (filter P l).
Proof.
  induction 1 as [|x l Hl IH Hx]; [constructor|].
  rewrite filter_cons. case_decide; [|done].
  constructor; [done|].
  apply Forall_forall. intros y [_ Hy]%list_elem_of_filter.
  by apply (proj1 (Forall_forall _ _) Hx).
Qed.

Lemma ascending_NoDup (l : list Z) : StronglySorted Z.lt l → NoDup l.
Proof.
  induction 1 as [|x l Hl IH Hx]; constructor; [|done].
  intros Hin. apply (proj1 (Forall_forall _ _) Hx) in Hin. lia.
Qed.

Lemma db_step_ids_ascending db next db' next' :
  db_step db next db' next' →
  1 ≤ next → ids_ascending db next →
  1 ≤ next' ∧ ids_ascending db' next'.
Proof.
  intros Hstep Hone [Hiss Hsorted].
  destruct (db_step_ids_issued _ _ _ _ Hstep Hone Hiss) as [Hone' Hiss'].
  split; [done|]. split; [done|].
  destruct Hstep as [|d Hd|idx old new Hold Hid|j].
  - done.
  - rewrite int_ids_app. apply StronglySorted_app_2; [|done|].
    + intros n m Hn Hm. unfold int_ids in Hm. simpl in Hm.
      rewrite Hd in Hm. apply list_elem_of_singleton in Hm as ->.
      destruct (ids_issued_int_ids _ _ Hiss) as [Hbelow _].
      apply (proj1 (Forall_forall _ _) Hbelow) in Hn. lia.
    + unfold int_ids. simpl. rewrite Hd. repeat constructor.
  - by rewrite (int_ids_rewritten _ _ _ _ Hold Hid).
  - rewrite int_ids_others. by apply StronglySorted_filter.
Qed.

Section reachable_ids.
Context {token : Type} `{!Jose token}.
Variable environ : gmap string string.

Lemma serve_ids_ascending (reqs : list (Z * request token)) st :
  (∀ c, 1 ≤ next_id_of c st ∧
        ids_ascending (db_of c st) (next_id_of c st)) →
  ∀ c, 1 ≤ next_id_of c (serve environ reqs st).2 ∧
       ids_ascending (db_of c (serve environ reqs st).2)
                     (next_id_of c (serve environ reqs st).2).
Proof.
  revert st. induction reqs as [|[now req] rest IH]; intros st Hinv; [done|].
  rewrite serve_cons. simpl. apply IH. intros c.
  destruct (Hinv c) as [Hone Hasc].
  destruct (route_summary environ c now req st) as [Hstep _].
  by eapply db_step_ids_ascending.
Qed.

(** X14. In every store the server can reach from start-up, whatever was
    created, updated and deleted on the way, the records of a collection
    carry integer ids between 1 and the counter, strictly increasing in
    storage order, so that no two records of a collection share an id. *)
Theorem reachable_ids_ascending (reqs : list (Z * request token)) c :
  ids_ascending (db_of c (serve environ reqs initial_store).2)
                (next_id_of c (serve environ reqs initial_store).2)
  ∧ NoDup ((λ r : pydict, r !! "id")
             <$> db_of c (serve environ reqs initial_store).2).
Proof.
  assert (ids_ascending (db_of c (serve environ reqs initial_store).2)
            (next_id_of c (serve environ reqs initial_store).2))
    as [Hiss Hsorted].
  { apply serve_ids_ascending. intros c'.
    destruct c'; (split; [simpl; lia|]); split; constructor. }
  split; [by split|].
  destruct (ids_issued_int_ids _ _ Hiss) as [_ ->].
  apply NoDup_fmap_2; [by intros x y [=]|].
  by apply ascending_NoDup.
Qed.
End reachable_ids.

Lemma has_id_int_ids db i : has_id db i → i ∈ int_ids db.
Proof.
  intros (r & Hr & Hid). apply list_elem_of_omap. exists r.
  split; [done|]. by rewrite Hid.
Qed.

(** With distinct ids, dropping the records of an id that is there drops
    one record. *)
Lemma others_length_unique db next i :
  ids_issued db next → NoDup (int_ids db) → has_id db i →
  (length (others i db) + 1 = length db)%nat.
Proof.
  unfold others.
  induction 1 as [|x rest (n & Hn & _) Hrest IH]; intros Hnd Hhas.
  - destruct Hhas as (r & Hr & _). by apply elem_of_nil in Hr.
  - unfold int_ids in Hnd. simpl in Hnd. rewrite Hn in Hnd.
    apply NoDup_cons in Hnd as [Hfresh Hnd].
    rewrite filter_cons. rewrite Hn.
    destruct (decide (n = i)) as [->|Hne].
    + rewrite decide_False by (by intros []).
      assert (¬ has_id rest i) as Hno
        by (by intros Hin%has_id_int_ids).
      fold (others i rest). rewrite (others_absent _ _ Hno). simpl. lia.
    + rewrite decide_True by congruence. simpl.
      rewrite IH; [done|done|].
      destruct Hhas as (r & [->|Hr]%elem_of_cons & Hid); [congruence|].
      by exists r.
Qed.

(** X15. In a store whose ids are ascending, as every reachable store is,
    [Delete(id)] of an id that is there succeeds and removes exactly one
    record: the collection is one shorter, holds the other records in their
    order, and no longer has the id. *)
Theorem delete_removes_exactly_one c i st :
  ids_ascending (db_of c st) (next_id_of c st) →
  has_id (db_of c st) i →
  ∃ st',
    delete_in c i st = (Ok PNone, st') ∧
    db_of c st' = others i (db_of c st) ∧
    (length (db_of c st') + 1 = length (db_of c st))%nat ∧
    ¬ has_id (db_of c st') i.
Proof.
  intros [Hiss Hsorted] Hhas.
  destruct (delete_in_spec c i st (ids_issued_keyed _ _ Hiss))
    as [(_ & st' & Hdel & Hdb)|[Hno _]]; [|done].
  exists st'. split_and!; [done|done|..].
  - rewrite Hdb. eapply others_length_unique; [done| |done].
    by apply ascending_NoDup.
  - rewrite Hdb. by intros [_ ?]%others_has_id.
Qed.

Lemma delete_removes_exactly_one_witness :
  ∃ st',
    delete_in Courses 1 sample_store = (Ok PNone, st') ∧
    db_of Courses st' = others 1 (db_of Courses sample_store) ∧
    (length (db_of Courses st') + 1
     = length (db_of Courses sample_store))%nat ∧
    ¬ has_id (db_of Courses st') 1.
Proof.
  apply (delete_removes_exactly_one Courses 1 sample_store).
  - split.
    + repeat constructor. eexists. split; [reflexivity|simpl; lia].
    + repeat constructor.
  - eexists. split; [left|]. reflexivity.
Defined.

(** ** The keys of the stored records *)

Lemma dom_student_record v d :
  dom (<["id" := v]> (Student.dict d)) = shape Students.
Proof.
  unfold Student.dict. rewrite !dom_insert_L, dom_empty_L.
  apply set_eq. intros k. simpl. set_unfold. tauto.
Qed.

Lemma dom_course_record v d :
  dom (<["id" := v]> (Course.dict d)) = shape Courses.
Proof.
  unfold Course.dict. rewrite !dom_insert_L, dom_empty_L.
  apply set_eq. intros k. simpl. set_unfold. tauto.
Qed.

Lemma dom_enrollment_record v d :
  dom (<["id" := v]> (Enrollment.dict d)) = shape Enrollments.
Proof.
  unfold Enrollment.dict. rewrite !dom_insert_L, dom_empty_L.
  apply set_eq. intros k. simpl. set_unfold. tauto.
Qed.

(** Merging part of a payload dict into a record adds no key. *)
Lemma dom_merged (old d : pydict) (P : string * value → Prop)
    `{!∀ kv, Decision (P kv)} (keys : gset string) :
  dom d ⊆ keys → dom old = keys →
  dom (dict_update old (delete "id" (filter P d))) = keys.
Proof.
  intros Hd Hold. unfold dict_update.
  rewrite dom_union_L, dom_delete_L, Hold.
  pose proof (dom_filter_subseteq P d) as Hf.
  apply set_eq. intros k. set_unfold. split; [|tauto].
  intros [[Hk _]|Hk]; [|done]. by apply Hd, Hf.
Qed.

Lemma update_student_shapes i d st :
  well_shaped Students (students_db st) →
  well_shaped Students (students_db (update_student i d st).2).
Proof.
  intros Hsh. unfold update_student, Student.dict_exclude_unset, try_.
  destruct (find_by_id (students_db st) i 0) as [[[idx old]|]|] eqn:Hf;
    [|done|done].
  apply find_by_id_Some in Hf as (k & -> & Hold & _).
  rewrite guarded_del_id. simpl. apply Forall_insert; [done|].
  apply dom_merged.
  - unfold Student.dict. rewrite !dom_insert_L, dom_empty_L. simpl.
    intros x; set_unfold; tauto.
  - by eapply (Forall_lookup_1 _ _ _ _ Hsh).
Qed.

Lemma update_course_shapes i d st :
  well_shaped Courses (courses_db st) →
  well_shaped Courses (courses_db (update_course i d st).2).
Proof.
  intros Hsh. unfold update_course, Course.dict_exclude_unset, try_.
  destruct (find_by_id (courses_db st) i 0) as [[[idx old]|]|] eqn:Hf;
    [|done|done].
  apply find_by_id_Some in Hf as (k & -> & Hold & _).
  rewrite guarded_del_id. simpl. apply Forall_insert; [done|].
  apply dom_merged.
  - unfold Course.dict. rewrite !dom_insert_L, dom_empty_L. simpl.
    intros x; set_unfold; tauto.
  - by eapply (Forall_lookup_1 _ _ _ _ Hsh).
Qed.

Lemma delete_in_shapes c c' i st :
  well_shaped c' (db_of c' st) →
  well_shaped c' (db_of c' (delete_in c i st).2).
Proof.
  intros Hsh. destruct (decide (c = c')) as [<-|Hne];
    [|by rewrite delete_in_frame].
  destruct c; simpl in *;
    unfold delete_student, delete_course, delete_enrollment, try_;
    match goal with
    | |- context [without_id ?db i] =>
        let Hw := fresh "Hw" in
        destruct (without_id db i) eqn:Hw; [|done];
        apply without_id_others in Hw as ->
    end; simpl; case_match; simpl; by apply others_Forall.
Qed.

Lemma endpoint_shapes {token} (req : request token) h c st :
  endpoint_of req = Some h →
  well_shaped c (db_of c st) → well_shaped c (db_of c (h st).2).
Proof.
  intros Hh Hsh.
  destruct (is_mutating req) eqn:Hmut;
    [|by rewrite (proj2 (endpoint_quiet req h st Hh) Hmut)].
  destruct req; try discriminate Hmut; injection Hh as <-.
  - destruct c; simpl in *; [|done|done].
    apply Forall_app. split; [done|]. constructor; [|constructor].
    apply dom_student_record.
  - destruct c; simpl in *;
      [by apply update_student_shapes| |];
      unfold update_student, try_;
      destruct (find_by_id _ _ _) as [[[? ?]|]|]; done.
  - by apply (delete_in_shapes Students).
  - destruct c; simpl in *; [done| |done].
    apply Forall_app. split; [done|]. constructor; [|constructor].
    apply dom_course_record.
  - destruct c; simpl in *;
      [|by apply update_course_shapes|];
      unfold update_course, try_;
      destruct (find_by_id _ _ _) as [[[? ?]|]|]; done.
  - by apply (delete_in_shapes Courses).
  - unfold add_enrollment, try_.
    destruct (any_id_eq (students_db st) _) as [[]|]; [| |done];
      (destruct (any_id_eq (courses_db st) _) as [[]|]; simpl; try done).
    destruct c; simpl in *; [done|done|].
    apply Forall_app. split; [done|]. constructor; [|constructor].
    apply dom_enrollment_record.
  - by apply (delete_in_shapes Enrollments).
Qed.

Section reachable_shapes.
Context {token : Type} `{!Jose token}.
Variable environ : gmap string string.

Lemma route_shapes now (req : request token) c st :
  well_shaped c (db_of c st) →
  well_shaped c (db_of c (route environ now req st).2).
Proof.
  intros Hsh. destruct (is_public req) eqn:Hpub.
  - destruct req; try discriminate Hpub; simpl; [done|].
    unfold login_for_access_token. by destruct (negb _ || negb _).
  - destruct (route_protected environ now req st Hpub)
      as (h & Hh & [(e0 & _ & ->)|[_ ->]]); [done|].
    pose proof (endpoint_shapes req h c st Hh Hsh) as Hsh'.
    unfold as_body. by destruct (h st).
Qed.

(** X16. In every store the server can reach from start-up, each stored
    record has exactly the keys of its model: a student has [id], [major]
    and [email], a course [id], [title], [code] and [credits], an enrollment
    [id], [student_id] and [course_id]; no update adds or removes a key. *)
Theorem reachable_records_well_shaped (reqs : list (Z * request token)) c :
  well_shaped c (db_of c (serve environ reqs initial_store).2).
Proof.
  cut (∀ st, well_shaped c (db_of c st) →
             well_shaped c (db_of c (serve environ reqs st).2)).
  { intros Hgen. apply Hgen. destruct c; constructor. }
  induction reqs as [|[now req] rest IH]; intros st Hsh; [done|].
  rewrite serve_cons. simpl. by apply IH, route_shapes.
Qed.
End reachable_shapes.

(** ** Listing a collection *)

Lemma run_add_student_db payloads st :
  students_db (run (add_student <$> payloads) st).2
  = (students_db st
     ++ imap (λ i p, <["id" := VInt (next_student_id st + Z.of_nat i)]>
                       (Student.dict p)) payloads)%list.
Proof.
  revert st. induction payloads as [|p rest IH]; intros st.
  - simpl. by rewrite app_nil_r.
  - rewrite fmap_cons, run_cons. simpl. rewrite IH. simpl.
    rewrite <- app_assoc. simpl. rewrite Z.add_0_r. do 2 f_equal.
    apply imap_ext. intros i q _. simpl. do 2 f_equal. lia.
Qed.

Lemma run_add_course_db payloads st :
  courses_db (run (add_course <$> payloads) st).2
  = (courses_db st
     ++ imap (λ i p, <["id" := VInt (next_course_id st + Z.of_nat i)]>
                       (Course.dict p)) payloads)%list.
Proof.
  revert st. induction payloads as [|p rest IH]; intros st.
  - simpl. by rewrite app_nil_r.
  - rewrite fmap_cons, run_cons. simpl. rewrite IH. simpl.
    rewrite <- app_assoc. simpl. rewrite Z.add_0_r. do 2 f_equal.
    apply imap_ext. intros i q _. simpl. do 2 f_equal. lia.
Qed.

(** X17. [List] shows the records in creation order: after any number of
    creates in a row, listing the students, or the courses, returns the
    records that were there before followed by the created ones, numbered
    from the counter on, in call order, and leaves the store alone. *)
Theorem list_in_creation_order :
  (∀ payloads st,
     get_students (run (add_student <$> payloads) st).2
     = (Ok (PList (students_db st
                   ++ imap (λ i p,
                              <["id" := VInt (next_student_id st
                                              + Z.of_nat i)]>
                                (Student.dict p)) payloads)),
        (run (add_student <$> payloads) st).2))
  ∧ (∀ payloads st,
       get_courses (run (add_course <$> payloads) st).2
       = (Ok (PList (courses_db st
                     ++ imap (λ i p,
                                <["id" := VInt (next_course_id st
                                                + Z.of_nat i)]>
                                  (Course.dict p)) payloads)),
          (run (add_course <$> payloads) st).2)).
Proof.
  split; intros payloads st.
  - unfold get_students. by rewrite run_add_student_db.
  - unfold get_courses. by rewrite run_add_course_db.
Qed.

(** ** What create and update keep *)

Lemma any_id_eq_true db target :
  any_id_eq db target = Ok true → has_id db target.
Proof.
  induction db as [|x rest IH]; simpl; [done|].
  unfold getitem. destruct (x !! "id") as [v|] eqn:Hv; simpl; [|done].
  destruct (py_eq v (VInt target)) eqn:Heq.
  - intros _. apply py_eq_VInt in Heq as ->. exists x. split; [left|done].
  - intros (r & Hr & Hid)%IH. exists r. split; [by right|done].
Qed.

(** X18. No enrollment is stored without its references: whenever an
    enrollment create succeeds, on any store, a student with its
    [student_id] and a course with its [course_id] are in their
    collections at that time, and the store differs from the one before by
    that one appended record and the advanced counter. *)
Theorem enrollment_stored_only_with_references d st r st' :
  add_enrollment d st = (Ok r, st') →
  references_exist st d ∧
  r = PDict (<["id" := VInt (next_enrollment_id st)]> (Enrollment.dict d)) ∧
  st' = set_next_enrollment_id (next_enrollment_id st + 1)
          (set_enrollments_db
             (enrollments_db st
              ++ [<["id" := VInt (next_enrollment_id st)]>
                    (Enrollment.dict d)])
             st).
Proof.
  unfold add_enrollment, try_, references_exist.
  destruct (any_id_eq (students_db st) _) as [student_exists|] eqn:Hs;
    [|done].
  destruct (any_id_eq (courses_db st) _) as [course_exists|] eqn:Hc;
    [|done].
  destruct student_exists; [|done]. destruct course_exists; [|done].
  simpl.
  generalize (<["id" := VInt (next_enrollment_id st)]> (Enrollment.dict d)).
  intros new [= <- <-]. split; [|done].
  split; by apply any_id_eq_true.
Qed.

Lemma enrollment_stored_only_with_references_witness :
  references_exist sample_store (Enrollment.mk None 1 1).
Proof.
  apply (enrollment_stored_only_with_references (Enrollment.mk None 1 1)
           sample_store
           (PDict (<["id" := VInt 1]>
                     (Enrollment.dict (Enrollment.mk None 1 1))))
           (add_enrollment (Enrollment.mk None 1 1) sample_store).2).
  reflexivity.
Defined.

Lemma id_column_rewritten (db : list pydict) idx old new :
  db !! idx = Some old → new !! "id" = old !! "id" →
  (λ r : pydict, r !! "id") <$> <[idx := new]> db
  = (λ r : pydict, r !! "id") <$> db.
Proof.
  intros Hold Hid. rewrite list_fmap_insert. apply list_insert_id.
  by rewrite list_lookup_fmap, Hold, Hid.
Qed.

(** X19. An update, successful or not, never changes which ids a
    collection holds nor their order: the column of ids of the students, or
    of the courses, is the same after [Update] as before. *)
Theorem update_keeps_id_column :
  (∀ st i d,
     (λ r : pydict, r !! "id") <$> students_db (update_student i d st).2
     = (λ r : pydict, r !! "id") <$> students_db st)
  ∧ (∀ st i d,
       (λ r : pydict, r !! "id") <$> courses_db (update_course i d st).2
       = (λ r : pydict, r !! "id") <$> courses_db st).
Proof.
  split; intros st i d.
  - unfold update_student, Student.dict_exclude_unset, try_.
    destruct (find_by_id (students_db st) i 0) as [[[idx old]|]|] eqn:Hf;
      [|done|done].
    apply find_by_id_Some in Hf as (k & -> & Hold & _).
    rewrite guarded_del_id. simpl.
    apply (id_column_rewritten _ _ old); [done|].
    by rewrite merged_lookup, decide_False by (intros [? ?]; congruence).
  - unfold update_course, Course.dict_exclude_unset, try_.
    destruct (find_by_id (courses_db st) i 0) as [[[idx old]|]|] eqn:Hf;
      [|done|done].
    apply find_by_id_Some in Hf as (k & -> & Hold & _).
    rewrite guarded_del_id. simpl.
    apply (id_column_rewritten _ _ old); [done|].
    by rewrite merged_lookup, decide_False by (intros [? ?]; congruence).
Qed.

(** A scan for another id does not notice an appended record. *)
Lemma find_by_id_snoc_other db r n target base :
  r !! "id" = Some (VInt n) → n ≠ target →
  find_by_id (db ++ [r]) target base = find_by_id db target base.
Proof.
  intros Hid Hne. revert base.
  induction db as [|x rest IH]; intros base; simpl.
  - unfold getitem. rewrite Hid. simpl.
    by destruct (Z.eqb_spec n target).
  - unfold getitem. destruct (x !! "id") as [v|]; simpl; [|done].
    by destruct (py_eq v (VInt target)).
Qed.

(** X20. A create does not disturb the other records: for every id other
    than the one the counter is about to hand out, [GetByID] answers after
    the create as it did before, for students, courses and enrollments,
    whether or not the enrollment create went through. *)
Theorem create_keeps_other_reads st j :
  (∀ d, j ≠ next_student_id st →
        (get_student j (add_student d st).2).1 = (get_student j st).1)
  ∧ (∀ d, j ≠ next_course_id st →
          (get_course j (add_course d st).2).1 = (get_course j st).1)
  ∧ (∀ d, j ≠ next_enrollment_id st →
          (get_enrollment j (add_enrollment d st).2).1
          = (get_enrollment j st).1).
Proof.
  split_and!; intros d Hne.
  - unfold get_student, add_student, try_. simpl.
    rewrite (find_by_id_snoc_other _ _ (next_student_id st))
      by (apply lookup_insert_eq || congruence).
    by destruct (find_by_id _ _ _) as [[[? ?]|]|].
  - unfold get_course, add_course, try_. simpl.
    rewrite (find_by_id_snoc_other _ _ (next_course_id st))
      by (apply lookup_insert_eq || congruence).
    by destruct (find_by_id _ _ _) as [[[? ?]|]|].
  - unfold add_enrollment, try_.
    destruct (any_id_eq (students_db st) _) as [[]|]; [| |done];
      (destruct (any_id_eq (courses_db st) _) as [[]|]; simpl; try done).
    unfold get_enrollment, try_. simpl.
    rewrite (find_by_id_snoc_other _ _ (next_enrollment_id st))
      by (apply lookup_insert_eq || congruence).
    by destruct (find_by_id _ _ _) as [[[? ?]|]|].
Qed.

Lemma create_keeps_other_reads_witness :
  (get_student 1 (add_student alice sample_store).2).1
  = (get_student 1 sample_store).1.
Proof.
  apply (proj1 (create_keeps_other_reads sample_store 1) alice).
  discriminate.
Defined.
